(** * Session activity indicator: frame sources, display sink, event
      dispatcher and interrupt escalation

    A shallow embedding of the Python modules [spinner.py], [terminal.py],
    [hook.py] and [unstick.py], and the properties of their state machines. *)

From Stdlib Require Import ZArith NArith String Ascii Lia.
From stdpp Require Import base option list gmap.
From stdpp Require Import pretty.

Local Open Scope Z_scope.

(** ** Python strings

    A Python [str] is a sequence of Unicode code points; [len] counts code
    points and slicing cuts between them.  A string is therefore a list of
    code points, and [lit] reads an ASCII literal. *)

Module PyStr.

Definition char : Type := N.
Definition str : Type := list N.

Definition lit (s : string) : str :=
  List.map N_of_ascii (list_ascii_of_string s).

(** [len(s)] *)
Definition len (s : str) : Z := Z.of_nat (length s).

(** [s[:stop]] for an integer [stop]: a negative [stop] counts from the end,
    and both forms are clipped to the string. *)
Definition slice_to (stop : Z) (s : str) : str :=
  if stop <? 0 then take (Z.to_nat (len s + stop)) s
  else take (Z.to_nat stop) s.

(** [s.replace(old, new)] for single-character [old] and [new]. *)
Definition replace (old new : char) (s : str) : str :=
  List.map (fun c => if N.eqb c old then new else c) s.

(** Truthiness of a string: empty is falsy. *)
Definition truthy (s : str) : bool :=
  match s with [] => false | _ => true end.

End PyStr.

Import PyStr.

(** ** spinner.py *)

Module SpinnerPy.

(** Frame sets, keyed by style name. *)
Definition SPINNERS : gmap str (list str) :=
  list_to_map
    [ (lit "dots",
        [[0x280B]; [0x2819]; [0x2839]; [0x2838]; [0x283C];
         [0x2834]; [0x2826]; [0x2827]; [0x2807]; [0x280F]]%N);
      (lit "line", [lit "|"; lit "/"; lit "-"; lit "\"]);
      (lit "box", [[0x25F0]; [0x25F3]; [0x25F2]; [0x25F1]]%N);
      (lit "arrow",
        [[0x2190]; [0x2196]; [0x2191]; [0x2197];
         [0x2192]; [0x2198]; [0x2193]; [0x2199]]%N);
      (lit "bounce",
        [[0x2801]; [0x2802]; [0x2804]; [0x2840];
         [0x2880]; [0x2820]; [0x2810]; [0x2808]]%N);
      (lit "circle", [[0x25DC]; [0x25DD]; [0x25DE]; [0x25DF]]%N);
      (lit "grow",
        [[0x28C0]; [0x28C4]; [0x28E4]; [0x28E6]; [0x28F6];
         [0x28F7]; [0x28FF]; [0x28FE]; [0x28FC]; [0x28F8]]%N);
      (lit "ellipsis", [lit "   "; lit ".  "; lit ".. "; lit "..."]) ].

Definition DEFAULT_SPINNER : str := lit "dots".

(** [SPINNERS[DEFAULT_SPINNER]]; the key is present, so the fallback of
    [default] is never taken. *)
Definition default_frames : list str := default [] (SPINNERS !! DEFAULT_SPINNER).

(** The instance attributes of [Spinner]. *)
Record Spinner := mkSpinner {
  _frames : list str;
  _index : nat;
  _frame_count : nat
}.

(** [Spinner.__init__(style, frames)]: [if frames] is false for [None] and
    for an empty sequence. *)
Definition Spinner_init (style : str) (frames : option (list str)) : Spinner :=
  let fs :=
    match frames with
    | Some (f :: rest) => f :: rest
    | _ =>
        match SPINNERS !! style with
        | Some fs => fs
        | None => default_frames
        end
    end in
  {| _frames := fs; _index := 0; _frame_count := length fs |}.

(** [Spinner.next_frame]: [None] stands for the [IndexError] of an index out
    of range and the [ZeroDivisionError] of an empty frame count. *)
Definition next_frame (sp : Spinner) : option (str * Spinner) :=
  match _frames sp !! _index sp with
  | None => None
  | Some frame =>
      match _frame_count sp with
      | O => None
      | S _ =>
          Some (frame,
                {| _frames := _frames sp;
                   _index := (_index sp + 1) `mod` _frame_count sp;
                   _frame_count := _frame_count sp |})
      end
  end.

(** [Spinner.current_frame] *)
Definition current_frame (sp : Spinner) : option str :=
  _frames sp !! _index sp.

(** [Spinner.reset] *)
Definition reset (sp : Spinner) : Spinner :=
  {| _frames := _frames sp; _index := 0; _frame_count := _frame_count sp |}.

(** [k] successive calls of [next_frame], frames discarded. *)
Fixpoint advance (k : nat) (sp : Spinner) : option Spinner :=
  match k with
  | O => Some sp
  | S k' =>
      match next_frame sp with
      | Some (_, sp') => advance k' sp'
      | None => None
      end
  end.

(** The frame returned by call number [k] (counting from 0). *)
Definition kth_frame (k : nat) (sp : Spinner) : option str :=
  match advance k sp with
  | Some sp' => fst <$> next_frame sp'
  | None => None
  end.

(** *** [StatusSpinner(Spinner)] *)

Module Status.

Definition STATUS_ICONS : gmap str str :=
  list_to_map
    [ (lit "idle", [0x25CB]%N);
      (lit "error", [0x2717]%N);
      (lit "success", [0x2713]%N);
      (lit "warning", [0x26A0]%N) ].

Definition STREAMING_FRAMES : list str :=
  [ [0x2581]; [0x2582]; [0x2583]; [0x2584]; [0x2585]; [0x2586]; [0x2587];
    [0x2588]; [0x2587]; [0x2586]; [0x2585]; [0x2584]; [0x2583]; [0x2582] ]%N.

(** The inherited attributes are kept in [base]. *)
Record StatusSpinner := mkStatusSpinner {
  base : Spinner;
  _status : str;
  _streaming_index : nat
}.

(** [StatusSpinner.__init__(style)] *)
Definition StatusSpinner_init (style : str) : StatusSpinner :=
  {| base := Spinner_init style None;
     _status := lit "thinking";
     _streaming_index := 0 |}.

(** [StatusSpinner.set_status] *)
Definition set_status (status : str) (ss : StatusSpinner) : StatusSpinner :=
  {| base := base ss; _status := status;
     _streaming_index := _streaming_index ss |}.

(** [StatusSpinner.next_frame] *)
Definition next_frame (ss : StatusSpinner) : option (str * StatusSpinner) :=
  match STATUS_ICONS !! _status ss with
  | Some icon => Some (icon, ss)
  | None =>
      if decide (_status ss = lit "streaming") then
        match STREAMING_FRAMES !! _streaming_index ss with
        | None => None
        | Some frame =>
            Some (frame,
                  {| base := base ss; _status := _status ss;
                     _streaming_index :=
                       (_streaming_index ss + 1) `mod` length STREAMING_FRAMES |})
        end
      else
        match SpinnerPy.next_frame (base ss) with
        | None => None
        | Some (frame, sp') =>
            Some (frame,
                  {| base := sp'; _status := _status ss;
                     _streaming_index := _streaming_index ss |})
        end
  end.

(** [k] successive calls of [next_frame], frames discarded. *)
Fixpoint advance (k : nat) (ss : StatusSpinner) : option StatusSpinner :=
  match k with
  | O => Some ss
  | S k' =>
      match next_frame ss with
      | Some (_, ss') => advance k' ss'
      | None => None
      end
  end.

(** The frame returned by call number [k] (counting from 0). *)
Definition kth_frame (k : nat) (ss : StatusSpinner) : option str :=
  match advance k ss with
  | Some ss' => fst <$> next_frame ss'
  | None => None
  end.

(** The eight bar heights, lowest to highest. *)
Definition bars_up : list str :=
  [ [0x2581]; [0x2582]; [0x2583]; [0x2584];
    [0x2585]; [0x2586]; [0x2587]; [0x2588] ]%N.

End Status.

End SpinnerPy.

(** ** terminal.py *)

Module TerminalPy.

Definition ESC : str := [27%N].
Definition ANSI_SAVE_CURSOR : str := ESC ++ lit "[s".
Definition ANSI_RESTORE_CURSOR : str := ESC ++ lit "[u".
Definition ANSI_CLEAR_LINE : str := ESC ++ lit "[2K".
Definition ANSI_MOVE_TO_COL_1 : str := ESC ++ lit "[1G".
Definition ANSI_DIM : str := ESC ++ lit "[2m".
Definition ANSI_RESET : str := ESC ++ lit "[0m".

(** An output stream: whether it has an [isatty] method and what it answers,
    whether [write]/[flush] raise [OSError] (the pipe is gone), and the texts
    written so far, oldest first. *)
Record TextIO := mkTextIO {
  has_isatty : bool;
  isatty : bool;
  broken : bool;
  written : list str
}.

(** [os.environ.get(key)] is truthy when the variable is set and not empty. *)
Definition env_truthy (environ : gmap str str) (key : str) : bool :=
  match environ !! key with
  | Some v => truthy v
  | None => false
  end.

(** [supports_status_line(stream)], with [sys.stderr] and [os.environ]
    passed in. *)
Definition supports_status_line
    (stream : option TextIO) (stderr : TextIO) (environ : gmap str str) : bool :=
  let stream := match stream with Some st => st | None => stderr end in
  if negb (has_isatty stream) || negb (isatty stream) then false
  else
    let term := default [] (environ !! lit "TERM") in
    if decide (term = lit "dumb") then false
    else if env_truthy environ (lit "NO_COLOR") then false
    else if env_truthy environ (lit "AMPLIFIER_NO_STATUS") then false
    else true.

(** [get_terminal_width(default)]: [terminal_size] is the column count of
    [os.get_terminal_size()], or [None] when that raises [OSError]. *)
Definition get_terminal_width (terminal_size : option Z) (default : Z) : Z :=
  match terminal_size with
  | Some columns => columns
  | None => default
  end.

(** The attributes of [StatusLine]; its stream is threaded through the
    methods. *)
Record StatusLine := mkStatusLine {
  _position : str;
  _visible : bool;
  _last_content : str;
  _width : Z
}.

(** [StatusLine.__init__] *)
Definition StatusLine_init (position : str) (terminal_size : option Z) : StatusLine :=
  {| _position := position; _visible := false; _last_content := [];
     _width := get_terminal_width terminal_size 80 |}.

(** [StatusLine._write]: a failing stream marks the line hidden. *)
Definition _write (text : str) (sl : StatusLine) (io : TextIO) : StatusLine * TextIO :=
  if broken io then
    ({| _position := _position sl; _visible := false;
        _last_content := _last_content sl; _width := _width sl |}, io)
  else
    (sl, {| has_isatty := has_isatty io; isatty := isatty io;
            broken := broken io; written := written io ++ [text] |}).

(** [StatusLine.show] *)
Definition show (sl : StatusLine) (io : TextIO) : StatusLine * TextIO :=
  if _visible sl then (sl, io)
  else
    let sl := {| _position := _position sl; _visible := true;
                 _last_content := _last_content sl; _width := _width sl |} in
    if decide (_position sl = lit "bottom") then _write [10%N] sl io
    else (sl, io).

(** [StatusLine.hide] *)
Definition hide (sl : StatusLine) (io : TextIO) : StatusLine * TextIO :=
  if negb (_visible sl) then (sl, io)
  else
    let sl := {| _position := _position sl; _visible := false;
                 _last_content := _last_content sl; _width := _width sl |} in
    let '(sl, io) := _write (ANSI_CLEAR_LINE ++ ANSI_MOVE_TO_COL_1) sl io in
    if decide (_position sl = lit "bottom") then _write (ESC ++ lit "[1A") sl io
    else (sl, io).

(** The width-aware cut of [StatusLine.update]. *)
Definition truncate (width : Z) (content : str) : str :=
  let max_width := width - 2 in
  if len content >? max_width then slice_to (max_width - 3) content ++ lit "..."
  else content.

(** The escape-wrapped text [StatusLine.update] writes for [content]. *)
Definition framed (position content : str) : str :=
  if decide (position = lit "bottom") then
    ANSI_SAVE_CURSOR ++ ESC ++ lit "[999;1H" ++ ANSI_CLEAR_LINE
      ++ ANSI_DIM ++ content ++ ANSI_RESET ++ ANSI_RESTORE_CURSOR
  else
    ANSI_MOVE_TO_COL_1 ++ ANSI_CLEAR_LINE ++ ANSI_DIM ++ content ++ ANSI_RESET.

(** [StatusLine.update] *)
Definition update (content : str) (sl : StatusLine) (io : TextIO) : StatusLine * TextIO :=
  if negb (_visible sl) then (sl, io)
  else
    let content := truncate (_width sl) content in
    if decide (content = _last_content sl) then (sl, io)
    else
      let sl := {| _position := _position sl; _visible := _visible sl;
                   _last_content := content; _width := _width sl |} in
      _write (framed (_position sl) content) sl io.

End TerminalPy.

(** ** unstick.py *)

Module UnstickPy.

(** Host callbacks are opaque; invoking one is an observable effect. *)
Definition Callback : Type := nat.

Inductive Effect :=
| StderrWrite (text : str)
| Invoke (cb : Callback).

Inductive Exn :=
| KeyboardInterrupt (message : str)
| OtherException (tag : nat).

Inductive Outcome :=
| Returned
| Raised (e : Exn).

(** What [signal.getsignal] can answer apart from [None]. *)
Inductive Handlers :=
| SIG_DFL
| SIG_IGN
| PyCallable (f : nat)
| handle_sigint_method.

(** A [datetime] is a count of microseconds, the resolution of
    [datetime.now()].  [timedelta.total_seconds()] divides a whole number of
    microseconds by [10**6], so [elapsed < 2.0] holds exactly when the
    difference is below 2000000 microseconds. *)
Definition datetime : Type := Z.

Record UnstickHandler := mkUnstickHandler {
  _on_cancel : option Callback;
  _on_abort : option Callback;
  _on_exit : option Callback;
  _interrupt_count : Z;
  _last_interrupt : option datetime;
  _escalation_window : Z;
  _original_handler : option Handlers;
  _installed : bool
}.

(** [UnstickHandler.__init__] *)
Definition UnstickHandler_init (on_cancel on_abort on_exit : option Callback) : UnstickHandler :=
  {| _on_cancel := on_cancel; _on_abort := on_abort; _on_exit := on_exit;
     _interrupt_count := 0; _last_interrupt := None;
     _escalation_window := 2000000;
     _original_handler := None; _installed := false |}.




(** [UnstickHandler._show_hint] *)
Definition _show_hint (message : str) : Effect :=
  StderrWrite ([10; 0x26A0; 32]%N ++ message ++ [10%N]).

(** The counter update at the head of [_handle_sigint]. *)
Definition next_count (h : UnstickHandler) (now : datetime) : Z :=
  match _last_interrupt h with
  | Some last =>
      if now - last <? _escalation_window h then _interrupt_count h + 1 else 1
  | None => 1
  end.

(** [if callback: callback()] *)
Definition call (cb : option Callback) : list Effect :=
  match cb with
  | Some f => [Invoke f]
  | None => []
  end.

(** [UnstickHandler._handle_sigint], with the reading of [datetime.now()]
    passed in. *)
Definition _handle_sigint (now : datetime) (h : UnstickHandler)
    : UnstickHandler * list Effect * Outcome :=
  let count := next_count h now in
  let h :=
    {| _on_cancel := _on_cancel h; _on_abort := _on_abort h; _on_exit := _on_exit h;
       _interrupt_count := count; _last_interrupt := Some now;
       _escalation_window := _escalation_window h;
       _original_handler := _original_handler h; _installed := _installed h |} in
  if count =? 1 then
    (h,
     _show_hint (lit "Canceling current operation... (press again to abort turn)")
       :: call (_on_cancel h),
     Returned)
  else if count =? 2 then
    (h,
     _show_hint (lit "Aborting turn... (press again to exit)") :: call (_on_abort h),
     Returned)
  else
    match _on_exit h with
    | Some f => (h, [_show_hint (lit "Emergency exit!"); Invoke f], Returned)
    | None =>
        (h, [_show_hint (lit "Emergency exit!")],
         Raised (KeyboardInterrupt (lit "User requested emergency exit")))
    end.

(** Delivery of a sequence of signals, given by the clock reading at each;
    the handler object outlives an exception it raised. *)
Definition deliver (times : list datetime) (h : UnstickHandler) : UnstickHandler :=
  foldl (fun h now => (_handle_sigint now h).1.1) h times.

(** The callbacks among a list of effects. *)
Definition invoked (effs : list Effect) : list Callback :=
  omap (fun e => match e with Invoke f => Some f | _ => None end) effs.

(** *** [wait_for_unstick_or_complete] *)






End UnstickPy.

(** ** hook.py *)

Module HookPy.

Definition datetime : Type := Z.

(** An event payload.  The handlers read seven keys of the payload dict,
    each at one type; a payload is given by which of them are present and
    with what value.  No other key is ever read. *)
Record Payload := mkPayload {
  pl_session_id : option str;
  pl_error : option str;
  pl_token_count : option Z;
  pl_usage : option (gmap str Z);
  pl_tool_name : option str;
  pl_name : option str;
  pl_agent : option str
}.

Definition empty_payload : Payload :=
  {| pl_session_id := None; pl_error := None; pl_token_count := None;
     pl_usage := None; pl_tool_name := None; pl_name := None;
     pl_agent := None |}.

Record SessionState := mkSessionState {
  session_id : option str;
  started_at : option datetime;
  status : str;
  current_tool : option str;
  input_tokens : Z;
  output_tokens : Z;
  turn_count : Z;
  is_streaming : bool;
  last_activity : option datetime;
  active_subsessions : gmap str str
}.

(** [SessionState()] with the dataclass defaults. *)
Definition SessionState_default : SessionState :=
  {| session_id := None; started_at := None; status := lit "idle";
     current_tool := None; input_tokens := 0; output_tokens := 0;
     turn_count := 0; is_streaming := false; last_activity := None;
     active_subsessions := ∅ |}.

(** Attribute assignments on a [SessionState]. *)
Definition set_status (v : str) (s : SessionState) : SessionState :=
  mkSessionState (session_id s) (started_at s) v (current_tool s)
    (input_tokens s) (output_tokens s) (turn_count s) (is_streaming s)
    (last_activity s) (active_subsessions s).

Definition set_current_tool (v : option str) (s : SessionState) : SessionState :=
  mkSessionState (session_id s) (started_at s) (status s) v
    (input_tokens s) (output_tokens s) (turn_count s) (is_streaming s)
    (last_activity s) (active_subsessions s).

Definition set_input_tokens (v : Z) (s : SessionState) : SessionState :=
  mkSessionState (session_id s) (started_at s) (status s) (current_tool s)
    v (output_tokens s) (turn_count s) (is_streaming s)
    (last_activity s) (active_subsessions s).

Definition set_output_tokens (v : Z) (s : SessionState) : SessionState :=
  mkSessionState (session_id s) (started_at s) (status s) (current_tool s)
    (input_tokens s) v (turn_count s) (is_streaming s)
    (last_activity s) (active_subsessions s).

Definition set_turn_count (v : Z) (s : SessionState) : SessionState :=
  mkSessionState (session_id s) (started_at s) (status s) (current_tool s)
    (input_tokens s) (output_tokens s) v (is_streaming s)
    (last_activity s) (active_subsessions s).

Definition set_is_streaming (v : bool) (s : SessionState) : SessionState :=
  mkSessionState (session_id s) (started_at s) (status s) (current_tool s)
    (input_tokens s) (output_tokens s) (turn_count s) v
    (last_activity s) (active_subsessions s).

Definition set_last_activity (v : option datetime) (s : SessionState) : SessionState :=
  mkSessionState (session_id s) (started_at s) (status s) (current_tool s)
    (input_tokens s) (output_tokens s) (turn_count s) (is_streaming s)
    v (active_subsessions s).

Definition set_active_subsessions (v : gmap str str) (s : SessionState) : SessionState :=
  mkSessionState (session_id s) (started_at s) (status s) (current_tool s)
    (input_tokens s) (output_tokens s) (turn_count s) (is_streaming s)
    (last_activity s) v.

(** The configuration keys the dispatcher reads.  [update_interval] and
    [stuck_threshold] are floats read only by the refresh loop and the stuck
    predicate; they are not part of this model. *)
Record Config := mkConfig {
  cfg_position : option str;
  cfg_show_tokens : option bool;
  cfg_show_elapsed : option bool;
  cfg_enable_unstick_hint : option bool
}.

(** The display sink and the refresh task are outside the dispatcher; the
    calls made on them are recorded, in order.  [StatusLineUpdateSummary]
    carries the state the final summary is formatted from and the clock
    reading its elapsed time uses ([None] when the session never started). *)
Inductive Effect :=
| NewStatusLine (ref : nat) (position : str)
| StatusLineShow (ref : nat)
| CreateUpdateTask (ref : nat)
| CancelUpdateTask (ref : nat)
| AwaitUpdateTask (ref : nat)
| StatusLineUpdateSummary (ref : nat) (snapshot : SessionState) (now : option datetime)
| SleepHalfSecond
| StatusLineHide (ref : nat).

(** What surrounds the hook: how many times the clock has been read, how many
    objects have been created, and the calls made so far, oldest first. *)
Record World := mkWorld {
  clock_reads : nat;
  created : nat;
  effects : list Effect
}.

Record SessionIndicatorHook := mkHook {
  _state : SessionState;
  _running : bool;
  _update_task : option nat;
  _position : str;
  _show_tokens : bool;
  _show_elapsed : bool;
  _enable_unstick_hint : bool;
  _status_line : option nat;
  _spinner : SpinnerPy.Spinner;
  _enabled : bool
}.

(** [SessionIndicatorHook.__init__(config)]; [supported] is the answer of
    [supports_status_line()]. *)
Definition SessionIndicatorHook_init (config : Config) (supported : bool)
    : SessionIndicatorHook :=
  {| _state := SessionState_default;
     _running := false;
     _update_task := None;
     _position := default (lit "bottom") (cfg_position config);
     _show_tokens := default true (cfg_show_tokens config);
     _show_elapsed := default true (cfg_show_elapsed config);
     _enable_unstick_hint := default true (cfg_enable_unstick_hint config);
     _status_line := None;
     _spinner := SpinnerPy.Spinner_init SpinnerPy.DEFAULT_SPINNER None;
     _enabled := supported |}.

Definition with_state (st : SessionState) (h : SessionIndicatorHook) : SessionIndicatorHook :=
  mkHook st (_running h) (_update_task h) (_position h) (_show_tokens h)
    (_show_elapsed h) (_enable_unstick_hint h) (_status_line h) (_spinner h)
    (_enabled h).

Definition SUBSCRIBED_EVENTS : list str :=
  [ lit "session:start"; lit "session:end"; lit "session:error";
    lit "llm:request"; lit "llm:response"; lit "llm:stream_start";
    lit "llm:stream_chunk"; lit "llm:stream_end"; lit "tool:pre";
    lit "tool:post"; lit "turn:start"; lit "turn:end";
    lit "task:agent_spawned"; lit "task:agent_complete" ].

(** The methods named [_handle_*]. *)
Inductive Handler :=
| H_session_start | H_session_end | H_session_error
| H_llm_request | H_llm_response
| H_llm_stream_start | H_llm_stream_chunk | H_llm_stream_end
| H_tool_pre | H_tool_post
| H_turn_start | H_turn_end
| H_task_agent_spawned | H_task_agent_complete.

Definition attr_name (hd : Handler) : str :=
  match hd with
  | H_session_start => lit "_handle_session_start"
  | H_session_end => lit "_handle_session_end"
  | H_session_error => lit "_handle_session_error"
  | H_llm_request => lit "_handle_llm_request"
  | H_llm_response => lit "_handle_llm_response"
  | H_llm_stream_start => lit "_handle_llm_stream_start"
  | H_llm_stream_chunk => lit "_handle_llm_stream_chunk"
  | H_llm_stream_end => lit "_handle_llm_stream_end"
  | H_tool_pre => lit "_handle_tool_pre"
  | H_tool_post => lit "_handle_tool_post"
  | H_turn_start => lit "_handle_turn_start"
  | H_turn_end => lit "_handle_turn_end"
  | H_task_agent_spawned => lit "_handle_task_agent_spawned"
  | H_task_agent_complete => lit "_handle_task_agent_complete"
  end.

Definition all_handlers : list Handler :=
  [ H_session_start; H_session_end; H_session_error; H_llm_request;
    H_llm_response; H_llm_stream_start; H_llm_stream_chunk; H_llm_stream_end;
    H_tool_pre; H_tool_post; H_turn_start; H_turn_end;
    H_task_agent_spawned; H_task_agent_complete ].

(** [getattr(self, name, None)] for a name that starts with [_handle_]. *)
Definition getattr_handler (name : str) : option Handler :=
  List.find (fun hd => bool_decide (attr_name hd = name)) all_handlers.

(** The handler [on_event] looks up for an event name:
    [f"_handle_{event_type.replace(':', '_')}"]. *)
Definition resolve (event_type : str) : option Handler :=
  getattr_handler (lit "_handle_" ++ replace 58%N 95%N event_type).

(** *** The state transitions of the handlers that touch only [_state] *)

Definition _handle_session_error (payload : Payload) (s : SessionState) : SessionState :=
  let s := set_status (lit "error") s in
  let error_msg := slice_to 50 (default (lit "Unknown error") (pl_error payload)) in
  set_current_tool (Some (lit "Error: " ++ error_msg)) s.

Definition _handle_llm_request (payload : Payload) (s : SessionState) : SessionState :=
  let s := set_status (lit "thinking") s in
  let s := set_current_tool None s in
  let s := set_is_streaming false s in
  match pl_token_count payload with
  | Some n => set_input_tokens (input_tokens s + n) s
  | None => s
  end.

Definition _handle_llm_response (payload : Payload) (s : SessionState) : SessionState :=
  let s := set_status (lit "processing") s in
  let s := set_is_streaming false s in
  match pl_token_count payload with
  | Some n => set_output_tokens (output_tokens s + n) s
  | None =>
      match pl_usage payload with
      | Some usage =>
          let s :=
            match usage !! lit "input_tokens" with
            | Some i => set_input_tokens i s
            | None => s
            end in
          match usage !! lit "output_tokens" with
          | Some o => set_output_tokens (output_tokens s + o) s
          | None => s
          end
      | None => s
      end
  end.

Definition _handle_llm_stream_start (payload : Payload) (s : SessionState) : SessionState :=
  set_is_streaming true (set_status (lit "streaming") s).

Definition _handle_llm_stream_chunk (payload : Payload) (s : SessionState) : SessionState :=
  s.

Definition _handle_llm_stream_end (payload : Payload) (s : SessionState) : SessionState :=
  set_status (lit "processing") (set_is_streaming false s).

Definition _handle_tool_pre (payload : Payload) (s : SessionState) : SessionState :=
  let tool_name :=
    default (default (lit "tool") (pl_name payload)) (pl_tool_name payload) in
  set_current_tool (Some tool_name) (set_status (lit "executing") s).

Definition _handle_tool_post (payload : Payload) (s : SessionState) : SessionState :=
  set_current_tool None (set_status (lit "thinking") s).

Definition _handle_turn_start (payload : Payload) (s : SessionState) : SessionState :=
  set_status (lit "thinking") (set_turn_count (turn_count s + 1) s).

Definition _handle_turn_end (payload : Payload) (s : SessionState) : SessionState :=
  set_current_tool None (set_status (lit "idle") s).

Definition _handle_task_agent_spawned (payload : Payload) (s : SessionState) : SessionState :=
  let sub_id := default (lit "unknown") (pl_session_id payload) in
  let agent := default (lit "agent") (pl_agent payload) in
  let s := set_active_subsessions (<[sub_id := agent]> (active_subsessions s)) s in
  let s := set_status (lit "delegating") s in
  set_current_tool (Some ([0x2192; 32]%N ++ agent)) s.

Definition _handle_task_agent_complete (payload : Payload) (s : SessionState) : SessionState :=
  let s :=
    match pl_session_id payload with
    | Some sub_id =>
        if truthy sub_id && bool_decide (is_Some (active_subsessions s !! sub_id))
        then set_active_subsessions (delete sub_id (active_subsessions s)) s
        else s
    | None => s
    end in
  if bool_decide (active_subsessions s = ∅)
  then set_current_tool None (set_status (lit "thinking") s)
  else s.

Section Dispatcher.

(** [clock n] is what the [n]-th call of [datetime.now()] in the process
    returns. *)
Variable clock : nat → datetime.

Definition datetime_now (w : World) : datetime * World :=
  (clock (clock_reads w),
   mkWorld (S (clock_reads w)) (created w) (effects w)).

Definition emit (effs : list Effect) (w : World) : World :=
  mkWorld (clock_reads w) (created w) (effects w ++ effs).

Definition fresh (w : World) : nat * World :=
  (created w, mkWorld (clock_reads w) (S (created w)) (effects w)).

Definition _handle_session_start (payload : Payload)
    (h : SessionIndicatorHook) (w : World) : SessionIndicatorHook * World :=
  let '(t_started, w) := datetime_now w in
  let '(t_activity, w) := datetime_now w in
  let st :=
    {| session_id := pl_session_id payload; started_at := Some t_started;
       status := lit "starting"; current_tool := None;
       input_tokens := 0; output_tokens := 0; turn_count := 0;
       is_streaming := false; last_activity := Some t_activity;
       active_subsessions := ∅ |} in
  let '(line, w) := fresh w in
  let w := emit [NewStatusLine line (_position h); StatusLineShow line] w in
  let '(task, w) := fresh w in
  let w := emit [CreateUpdateTask task] w in
  (mkHook st true (Some task) (_position h) (_show_tokens h) (_show_elapsed h)
     (_enable_unstick_hint h) (Some line) (_spinner h) (_enabled h),
   w).

Definition _handle_session_end (payload : Payload)
    (h : SessionIndicatorHook) (w : World) : SessionIndicatorHook * World :=
  let h :=
    mkHook (_state h) false (_update_task h) (_position h) (_show_tokens h)
      (_show_elapsed h) (_enable_unstick_hint h) (_status_line h) (_spinner h)
      (_enabled h) in
  let w :=
    match _update_task h with
    | Some task => emit [CancelUpdateTask task; AwaitUpdateTask task] w
    | None => w
    end in
  match _status_line h with
  | Some line =>
      let '(now, w) :=
        match started_at (_state h) with
        | Some _ => let '(t, w) := datetime_now w in (Some t, w)
        | None => (None, w)
        end in
      (h, emit [StatusLineUpdateSummary line (_state h) now;
                SleepHalfSecond; StatusLineHide line] w)
  | None => (h, w)
  end.

(** [await handler(payload)] *)
Definition run_handler (hd : Handler) (payload : Payload)
    (h : SessionIndicatorHook) (w : World) : SessionIndicatorHook * World :=
  match hd with
  | H_session_start => _handle_session_start payload h w
  | H_session_end => _handle_session_end payload h w
  | H_session_error => (with_state (_handle_session_error payload (_state h)) h, w)
  | H_llm_request => (with_state (_handle_llm_request payload (_state h)) h, w)
  | H_llm_response => (with_state (_handle_llm_response payload (_state h)) h, w)
  | H_llm_stream_start => (with_state (_handle_llm_stream_start payload (_state h)) h, w)
  | H_llm_stream_chunk => (with_state (_handle_llm_stream_chunk payload (_state h)) h, w)
  | H_llm_stream_end => (with_state (_handle_llm_stream_end payload (_state h)) h, w)
  | H_tool_pre => (with_state (_handle_tool_pre payload (_state h)) h, w)
  | H_tool_post => (with_state (_handle_tool_post payload (_state h)) h, w)
  | H_turn_start => (with_state (_handle_turn_start payload (_state h)) h, w)
  | H_turn_end => (with_state (_handle_turn_end payload (_state h)) h, w)
  | H_task_agent_spawned =>
      (with_state (_handle_task_agent_spawned payload (_state h)) h, w)
  | H_task_agent_complete =>
      (with_state (_handle_task_agent_complete payload (_state h)) h, w)
  end.

(** [handler = getattr(...)] and [if handler: await handler(payload)] *)
Definition dispatch (event_type : str) (payload : Payload)
    (h : SessionIndicatorHook) (w : World) : SessionIndicatorHook * World :=
  match resolve event_type with
  | Some hd => run_handler hd payload h w
  | None => (h, w)
  end.

(** [SessionIndicatorHook.on_event] *)
Definition on_event (event_type : str) (payload : Payload)
    (h : SessionIndicatorHook) (w : World) : SessionIndicatorHook * World :=
  if negb (_enabled h) then (h, w)
  else
    let '(h, w) := dispatch event_type payload h w in
    let '(now, w) := datetime_now w in
    (with_state (set_last_activity (Some now) (_state h)) h, w).

(** One delivery: the clock reads made by others since the previous event
    (the refresh loop reads it on every tick), then the event. *)
Record Delivery := mkDelivery {
  other_reads : nat;
  event_type : str;
  payload : Payload
}.

Definition deliver (d : Delivery) (hw : SessionIndicatorHook * World)
    : SessionIndicatorHook * World :=
  let '(h, w) := hw in
  on_event (event_type d) (payload d) h
    (mkWorld (clock_reads w + other_reads d) (created w) (effects w)).

Definition run (ds : list Delivery) (hw : SessionIndicatorHook * World)
    : SessionIndicatorHook * World :=
  foldl (fun hw d => deliver d hw) hw ds.

(** The values [last_activity] takes after each delivery. *)
Fixpoint activity_log (ds : list Delivery) (hw : SessionIndicatorHook * World)
    : list (option datetime) :=
  match ds with
  | [] => []
  | d :: rest =>
      let hw' := deliver d hw in
      last_activity (_state hw'.1) :: activity_log rest hw'
  end.

End Dispatcher.

Definition world0 : World := mkWorld 0 0 [].

Definition config0 : Config := mkConfig None None None None.

End HookPy.

(** ** Invariants and the statements that are refuted *)

Module Specs.
Import SpinnerPy.

(** A spinner is well formed when the cached count is the number of frames
    and the cursor is inside them. *)
Definition wf (sp : Spinner) : Prop :=
  _frame_count sp = length (_frames sp) ∧ (_index sp < _frame_count sp)%nat.

(** The streaming frames read as a cycle over eight distinct glyphs that only
    ever moves forward. *)
Definition forward_only_waveform : Prop :=
  ∃ w : list str,
    length w = 8%nat ∧ NoDup w ∧
    ∀ style k,
      Status.kth_frame k
        (Status.set_status (lit "streaming") (Status.StatusSpinner_init style))
      = w !! (k `mod` 8)%nat.

End Specs.

(** ** Sequences of calls, and the rest of the modules *)

(** *** Calls on a status-aware spinner *)

Module SpinnerCalls.
Import SpinnerPy.

Inductive Call :=
| SetStatus (status : str)
| NextFrame.

(** The calls in order; the frames the [next_frame] calls returned, or
    [None] when one of them raised. *)
Fixpoint perform (cs : list Call) (ss : Status.StatusSpinner)
    : option (list str * Status.StatusSpinner) :=
  match cs with
  | [] => Some ([], ss)
  | SetStatus st :: rest => perform rest (Status.set_status st ss)
  | NextFrame :: rest =>
      match Status.next_frame ss with
      | None => None
      | Some (f, ss') =>
          match perform rest ss' with
          | None => None
          | Some (fs, ss'') => Some (f :: fs, ss'')
          end
      end
  end.

(** How many of the [next_frame] calls are made under the status
    [streaming], and how many under a status that has no fixed glyph and is
    not [streaming]; [status] is the status before the first call. *)
Fixpoint tally (status : str) (cs : list Call) : nat * nat :=
  match cs with
  | [] => (0, 0)%nat
  | SetStatus st :: rest => tally st rest
  | NextFrame :: rest =>
      let '(streaming, plain) := tally status rest in
      match Status.STATUS_ICONS !! status with
      | Some _ => (streaming, plain)
      | None =>
          if decide (status = lit "streaming") then (S streaming, plain)
          else (streaming, S plain)
      end
  end.

End SpinnerCalls.

(** *** Calls on a status line, and [ProgressBar] *)

Module TerminalCalls.
Import TerminalPy.

Inductive Call :=
| Show
| Hide
| Update (content : str).

Definition call (c : Call) (st : StatusLine * TextIO) : StatusLine * TextIO :=
  match c with
  | Show => show st.1 st.2
  | Hide => hide st.1 st.2
  | Update content => update content st.1 st.2
  end.

Definition perform (cs : list Call) (st : StatusLine * TextIO) : StatusLine * TextIO :=
  foldl (λ st c, call c st) st cs.

(** The integer attributes of [ProgressBar]. *)
Record ProgressBar := mkProgressBar {
  total : Z;
  current : Z;
  width : Z
}.

(** [ProgressBar.__init__] *)
Definition ProgressBar_init (total width : Z) : ProgressBar :=
  {| total := total; current := 0; width := width |}.

(** [ProgressBar.update] *)
Definition progress_update (value : Z) (pb : ProgressBar) : ProgressBar :=
  {| total := total pb; current := Z.min value (total pb); width := width pb |}.

(** [ProgressBar.increment] *)
Definition increment (amount : Z) (pb : ProgressBar) : ProgressBar :=
  progress_update (current pb + amount) pb.

End TerminalCalls.

(** *** The text of the status line *)

Module HookTextPy.
Import HookPy.

(** [str(n)] for an integer. *)
Definition str_of_int (n : Z) : str := lit (pretty n).

(** [f"{n:02d}"]: zero-filled to two characters, the sign included. *)
Definition pad2 (n : Z) : str :=
  let s := str_of_int n in
  if (length s <? 2)%nat then lit "0" ++ s else s.

(** [SessionState.format_elapsed], with [secs = int(self.elapsed_seconds())]
    passed in.  [//] and [%] round towards minus infinity, as [Z.div] and
    [Z.modulo] do for a positive divisor. *)
Definition format_elapsed (secs : Z) : str :=
  if 3600 <=? secs then
    str_of_int (secs / 3600) ++ lit ":" ++ pad2 ((secs mod 3600) / 60)
      ++ lit ":" ++ pad2 (secs mod 60)
  else
    pad2 (secs / 60) ++ lit ":" ++ pad2 (secs mod 60).

(** [tool] when it is neither [None] nor empty. *)
Definition if_tool (tool : option str) : option str :=
  match tool with
  | Some (c :: t) => Some (c :: t)
  | _ => None
  end.

(** [SessionIndicatorHook._get_status_text] *)
Definition _get_status_text (s : SessionState) : str :=
  let tool := if_tool (current_tool s) in
  match (if decide (status s = lit "executing") then tool else None) with
  | Some tool =>
      let tool := if len tool >? 20 then slice_to 17 tool ++ lit "..." else tool in
      lit "executing: " ++ tool
  | None =>
      match (if decide (status s = lit "delegating") then tool else None) with
      | Some tool => tool
      | None =>
          if decide (status s = lit "streaming") then lit "streaming response"
          else if decide (status s = lit "thinking") then lit "thinking"
          else if decide (status s = lit "processing") then lit "processing"
          else if decide (status s = lit "idle") then lit "waiting for input"
          else if decide (status s = lit "error") then default (lit "error") tool
          else status s
      end
  end.

End HookTextPy.

(** *** Predicates the further properties are stated with *)

Module Specs2.
Import HookPy.

(** Every signal of [times] after the first comes less than [window] after
    the one before it. *)
Fixpoint rapid (window : Z) (times : list Z) : bool :=
  match times with
  | t0 :: ((t1 :: _) as rest) => (t1 - t0 <? window) && rapid window rest
  | _ => true
  end.

(** The values [status] is ever given. *)
Definition status_values : list str :=
  [ lit "starting"; lit "idle"; lit "thinking"; lit "processing";
    lit "streaming"; lit "executing"; lit "delegating"; lit "error" ].

(** The status is one of those values, and it is [streaming] only while the
    streaming flag is set. *)
Definition state_ok (s : SessionState) : Prop :=
  status s ∈ status_values
  ∧ (status s = lit "streaming" → is_streaming s = true).

#[global] Instance Handler_eq_dec : EqDecision Handler.
Proof. solve_decision. Defined.

(** The deliveries whose event name reaches [hd]. *)
Definition reaching (hd : Handler) (ds : list Delivery) : list Delivery :=
  filter (λ d, resolve (event_type d) = Some hd) ds.

End Specs2.

(** ** Properties of the frame sources *)

Module SpinnerFacts.
Import SpinnerPy Specs.

#[local] Arguments Nat.modulo : simpl never.

Lemma Spinner_init_frames_nonempty style frames :
  _frames (Spinner_init style frames) ≠ [].
Proof.
  unfold Spinner_init; simpl.
  destruct frames as [[|f rest]|]; try discriminate.
  all: destruct (SPINNERS !! style) as [fs|] eqn:E; [|discriminate].
  all: intros ->; revert E; unfold SPINNERS; clear.
  all: intros E; apply elem_of_list_to_map_2 in E.
  all: repeat (apply elem_of_cons in E as [E|E]; [discriminate E|]).
  all: by apply elem_of_nil in E.
Qed.

Lemma Spinner_init_wf style frames : wf (Spinner_init style frames).
Proof.
  pose proof (Spinner_init_frames_nonempty style frames) as Hne.
  unfold wf. split; [reflexivity|].
  unfold Spinner_init in *; simpl in *.
  match goal with |- (0 < length ?l)%nat => destruct l; [done | simpl; lia] end.
Qed.

Lemma next_frame_wf sp :
  wf sp →
  ∃ f, _frames sp !! _index sp = Some f ∧
       next_frame sp =
         Some (f, {| _frames := _frames sp;
                     _index := (_index sp + 1) `mod` _frame_count sp;
                     _frame_count := _frame_count sp |}).
Proof.
  intros [Hc Hi]. unfold next_frame.
  destruct (lookup_lt_is_Some_2 (_frames sp) (_index sp)) as [f Hf]; [lia|].
  exists f. split; [done|]. rewrite Hf.
  destruct (_frame_count sp) eqn:E; [lia|]. reflexivity.
Qed.

Lemma step_wf sp :
  wf sp →
  wf {| _frames := _frames sp;
        _index := (_index sp + 1) `mod` _frame_count sp;
        _frame_count := _frame_count sp |}.
Proof.
  intros [Hc Hi]. split; simpl; [done|]. apply Nat.mod_upper_bound. lia.
Qed.

Lemma advance_wf k : ∀ sp,
  wf sp →
  advance k sp =
    Some {| _frames := _frames sp;
            _index := (_index sp + k) `mod` _frame_count sp;
            _frame_count := _frame_count sp |}.
Proof.
  induction k as [|k IH]; intros sp Hwf.
  - simpl. destruct Hwf as [Hc Hi]. rewrite Nat.add_0_r.
    rewrite Nat.mod_small by done. by destruct sp.
  - simpl. destruct (next_frame_wf sp Hwf) as (f & _ & ->).
    rewrite IH by (by apply step_wf). simpl.
    do 2 f_equal. rewrite Nat.Div0.add_mod_idemp_l. f_equal. lia.
Qed.

Lemma kth_frame_wf k sp :
  wf sp →
  ∃ f, kth_frame k sp = Some f ∧
       _frames sp !! ((_index sp + k) `mod` length (_frames sp))%nat = Some f.
Proof.
  intros Hwf. unfold kth_frame. rewrite advance_wf by done.
  set (sp' := {| _frames := _frames sp;
                 _index := (_index sp + k) `mod` _frame_count sp;
                 _frame_count := _frame_count sp |}).
  assert (Hwf' : wf sp').
  { destruct Hwf as [Hc Hi].
    split; simpl; [done|]. apply Nat.mod_upper_bound. lia. }
  destruct (next_frame_wf sp' Hwf') as (f & Hf & ->). simpl in *.
  exists f. split; [done|]. destruct Hwf as [<- _]. done.
Qed.

Lemma advance_reset_wf k sp :
  wf sp → ∃ sp', advance k sp = Some sp' ∧ wf (reset sp') ∧ _frames sp' = _frames sp.
Proof.
  intros Hwf. eexists. split; [by apply advance_wf|].
  destruct Hwf as [Hc Hi]. split; [|done].
  split; simpl; [done | lia].
Qed.

(** C7. The plain frame source built over a non-empty frame sequence returns
    [frames[k mod n]] on its [k]-th call; after any number of calls, [reset]
    makes the next call return [frames[0]]; and a style name that is not in
    the table gives the frames of the default style, with no failure. *)
Theorem plain_frame_source_cycles
    (style unknown : str) (frames : list str) (k : nat) :
  (0 < length frames)%nat →
  SPINNERS !! unknown = None →
  let sp := Spinner_init style (Some frames) in
  (∃ f, kth_frame k sp = Some f ∧ frames !! (k `mod` length frames)%nat = Some f)
  ∧ (∃ sp' f0, advance k sp = Some sp'
               ∧ fst <$> next_frame (reset sp') = Some f0
               ∧ frames !! 0%nat = Some f0)
  ∧ _frames (Spinner_init unknown None) = default_frames
  ∧ SPINNERS !! DEFAULT_SPINNER = Some default_frames
  ∧ (∃ f, kth_frame k (Spinner_init unknown None) = Some f
          ∧ default_frames !! (k `mod` length default_frames)%nat = Some f).
Proof.
  intros Hlen Hunk sp.
  assert (Hfr : _frames sp = frames).
  { subst sp. destruct frames; [simpl in Hlen; lia | reflexivity]. }
  assert (Hwf : wf sp) by apply Spinner_init_wf.
  assert (Hu : _frames (Spinner_init unknown None) = default_frames).
  { unfold Spinner_init. rewrite Hunk. reflexivity. }
  split; [|split; [|split; [|split]]].
  - destruct (kth_frame_wf k sp Hwf) as (f & Hk & Hf).
    exists f. rewrite Hfr in Hf. by rewrite Nat.add_0_l in Hf.
  - destruct (advance_reset_wf k sp Hwf) as (sp' & Ha & Hwf' & Hfr').
    destruct (next_frame_wf _ Hwf') as (f0 & Hf0 & Hn).
    exists sp', f0. split; [done|]. rewrite Hn. split; [done|].
    change (_frames sp' !! 0%nat = Some f0) in Hf0.
    rewrite Hfr' in Hf0. by rewrite Hfr in Hf0.
  - exact Hu.
  - reflexivity.
  - destruct (kth_frame_wf k _ (Spinner_init_wf unknown None)) as (f & Hk & Hf).
    exists f. split; [done|]. rewrite Hu in Hf. by rewrite Nat.add_0_l in Hf.
Qed.

Lemma plain_frame_source_cycles_witness :
  let frames := [lit "a"; lit "b"; lit "c"] in
  ∃ f, kth_frame 4 (Spinner_init (lit "line") (Some frames)) = Some f
       ∧ frames !! (4 `mod` length frames)%nat = Some f.
Proof.
  intros frames.
  refine (proj1 (plain_frame_source_cycles (lit "line") (lit "nope") frames 4 _ _)).
  - simpl. lia.
  - reflexivity.
Defined.

(** *** The status-aware source *)

Lemma streaming_next ss :
  Status._status ss = lit "streaming" →
  (Status._streaming_index ss < 14)%nat →
  ∃ f, Status.STREAMING_FRAMES !! Status._streaming_index ss = Some f ∧
       Status.next_frame ss =
         Some (f, {| Status.base := Status.base ss;
                     Status._status := Status._status ss;
                     Status._streaming_index :=
                       (Status._streaming_index ss + 1) `mod` 14 |}).
Proof.
  intros Hs Hi. unfold Status.next_frame. rewrite Hs.
  change (Status.STATUS_ICONS !! lit "streaming") with (@None str).
  destruct (decide (lit "streaming" = lit "streaming")) as [_|]; [|done].
  destruct (lookup_lt_is_Some_2 Status.STREAMING_FRAMES (Status._streaming_index ss))
    as [f Hf]; [simpl; lia|].
  exists f. split; [done|]. rewrite Hf. reflexivity.
Qed.

Lemma streaming_advance k : ∀ ss,
  Status._status ss = lit "streaming" →
  (Status._streaming_index ss < 14)%nat →
  Status.advance k ss =
    Some {| Status.base := Status.base ss;
            Status._status := Status._status ss;
            Status._streaming_index := (Status._streaming_index ss + k) `mod` 14 |}.
Proof.
  induction k as [|k IH]; intros ss Hs Hi.
  - simpl. rewrite Nat.add_0_r, Nat.mod_small by done. by destruct ss.
  - simpl. destruct (streaming_next ss Hs Hi) as (f & _ & ->).
    rewrite IH; simpl; [|done|by apply Nat.mod_upper_bound].
    do 2 f_equal. rewrite Nat.Div0.add_mod_idemp_l. f_equal. lia.
Qed.

Lemma streaming_kth style k :
  Status.kth_frame k
    (Status.set_status (lit "streaming") (Status.StatusSpinner_init style))
  = Status.STREAMING_FRAMES !! (k `mod` 14)%nat.
Proof.
  unfold Status.kth_frame.
  rewrite streaming_advance by (simpl; (done || lia)).
  simpl Status._streaming_index. rewrite Nat.add_0_l.
  match goal with |- context [Status.next_frame ?x] =>
    destruct (streaming_next x) as (f & Hf & ->) end.
  - reflexivity.
  - simpl. apply Nat.mod_upper_bound. lia.
  - simpl in *. by rewrite Hf.
Qed.

(** C3, refuted as stated: the streaming frames are not a forward-only cycle
    over eight distinct glyphs.  Calls 6 and 8 both return the seventh bar,
    where such a cycle would return its seventh and its first glyph. *)
Lemma streaming_waveform_not_forward_only :
  Status.kth_frame 6
    (Status.set_status (lit "streaming") (Status.StatusSpinner_init (lit "dots")))
    = Some [0x2587%N]
  ∧ Status.kth_frame 8
      (Status.set_status (lit "streaming") (Status.StatusSpinner_init (lit "dots")))
    = Some [0x2587%N]
  ∧ length Status.STREAMING_FRAMES = 14%nat
  ∧ ¬ forward_only_waveform.
Proof.
  split; [by rewrite streaming_kth|].
  split; [by rewrite streaming_kth|].
  split; [reflexivity|].
  intros (w & Hlen & Hnd & Hw).
  pose proof (Hw (lit "dots") 6%nat) as H6.
  pose proof (Hw (lit "dots") 8%nat) as H8.
  rewrite streaming_kth in H6, H8.
  change (6 `mod` 8)%nat with 6%nat in H6.
  change (8 `mod` 8)%nat with 0%nat in H8.
  change (Status.STREAMING_FRAMES !! (6 `mod` 14)%nat) with (Some [0x2587%N]) in H6.
  change (Status.STREAMING_FRAMES !! (8 `mod` 14)%nat) with (Some [0x2587%N]) in H8.
  symmetry in H6, H8.
  pose proof (NoDup_lookup w 6 0 _ Hnd H6 H8). discriminate.
Qed.

(** C3, as the code has it.  While the status is [streaming] the [k]-th call
    returns entry [k mod 14] of a 14-frame waveform: the eight distinct bar
    heights upwards, then the six inner ones back down (a bounce).  For
    [idle], [error], [success] and [warning] the call returns the mapped
    glyph and leaves every cursor where it was.  For any other status the
    call is the plain frame source's, on the inherited cursor. *)
Theorem status_frame_source
    (style other : str) (ss : Status.StatusSpinner) (k : nat) :
  Status.STATUS_ICONS !! other = None →
  other ≠ lit "streaming" →
  Status.kth_frame k
      (Status.set_status (lit "streaming") (Status.StatusSpinner_init style))
    = Status.STREAMING_FRAMES !! (k `mod` 14)%nat
  ∧ is_Some (Status.STREAMING_FRAMES !! (k `mod` 14)%nat)
  ∧ Status.STREAMING_FRAMES
    = Status.bars_up ++ reverse (take 6 (drop 1 Status.bars_up))
  ∧ length Status.bars_up = 8%nat ∧ NoDup Status.bars_up
  ∧ Status.next_frame (Status.set_status (lit "idle") ss)
    = Some ([0x25CB%N], Status.set_status (lit "idle") ss)
  ∧ Status.next_frame (Status.set_status (lit "error") ss)
    = Some ([0x2717%N], Status.set_status (lit "error") ss)
  ∧ Status.next_frame (Status.set_status (lit "success") ss)
    = Some ([0x2713%N], Status.set_status (lit "success") ss)
  ∧ Status.next_frame (Status.set_status (lit "warning") ss)
    = Some ([0x26A0%N], Status.set_status (lit "warning") ss)
  ∧ Status.next_frame (Status.set_status other ss)
    = match next_frame (Status.base ss) with
      | Some (frame, sp') =>
          Some (frame,
                {| Status.base := sp'; Status._status := other;
                   Status._streaming_index := Status._streaming_index ss |})
      | None => None
      end.
Proof.
  intros Hicon Hother.
  split; [apply streaming_kth|].
  split; [apply lookup_lt_is_Some_2; simpl; apply Nat.mod_upper_bound; lia|].
  split; [reflexivity|].
  split; [reflexivity|].
  split.
  { apply (bool_decide_unpack (NoDup Status.bars_up)). vm_compute. exact I. }
  do 4 (split; [reflexivity|]).
  unfold Status.next_frame. simpl. rewrite Hicon.
  destruct (decide (other = lit "streaming")); [done|].
  by destruct (next_frame (Status.base ss)) as [[? ?]|].
Qed.

Lemma status_frame_source_witness :
  Status.next_frame
    (Status.set_status (lit "thinking") (Status.StatusSpinner_init (lit "line")))
  = Some (lit "|",
          {| Status.base := {| _frames := [lit "|"; lit "/"; lit "-"; lit "\"];
                               _index := 1; _frame_count := 4 |};
             Status._status := lit "thinking";
             Status._streaming_index := 0 |}).
Proof.
  refine (eq_trans
    (proj2 (proj2 (proj2 (proj2 (proj2 (proj2 (proj2 (proj2 (proj2
      (status_frame_source (lit "line") (lit "thinking")
         (Status.StatusSpinner_init (lit "line")) 3 _ _)))))))))) _).
  - reflexivity.
  - discriminate.
  - reflexivity.
Defined.

End SpinnerFacts.

(** ** Properties of the interrupt escalation handler *)

Module UnstickFacts.
Import UnstickPy.

Lemma handle_sigint_state now h :
  (_handle_sigint now h).1.1 =
    {| _on_cancel := _on_cancel h; _on_abort := _on_abort h; _on_exit := _on_exit h;
       _interrupt_count := next_count h now; _last_interrupt := Some now;
       _escalation_window := _escalation_window h;
       _original_handler := _original_handler h; _installed := _installed h |}.
Proof.
  unfold _handle_sigint.
  destruct (next_count h now =? 1); [reflexivity|].
  destruct (next_count h now =? 2); [reflexivity|].
  simpl. destruct (_on_exit h); reflexivity.
Qed.

Lemma deliver_snoc times now h :
  deliver (times ++ [now]) h = (_handle_sigint now (deliver times h)).1.1.
Proof. unfold deliver. by rewrite foldl_app. Qed.

(** What a handler looks like after any sequence of signals since its
    construction. *)
Lemma deliver_invariant on_cancel on_abort on_exit times :
  let h := deliver times (UnstickHandler_init on_cancel on_abort on_exit) in
  _on_cancel h = on_cancel ∧ _on_abort h = on_abort ∧ _on_exit h = on_exit
  ∧ _escalation_window h = 2000000
  ∧ _last_interrupt h = last times
  ∧ (times = [] → _interrupt_count h = 0)
  ∧ (times ≠ [] → 1 ≤ _interrupt_count h).
Proof.
  induction times as [|now times IH] using rev_ind.
  - simpl. repeat split; try done.
  - simpl in IH. destruct IH as (Hc & Ha & He & Hw & Hl & H0 & H1).
    intros h. subst h. rewrite deliver_snoc, handle_sigint_state. simpl.
    rewrite last_snoc.
    repeat split; try done.
    + intros Hnil. by destruct times.
    + intros _. unfold next_count. rewrite Hl, Hw.
      destruct (last times) as [t0|] eqn:El; [|lia].
      destruct (now - t0 <? 2000000); [|lia].
      assert (times ≠ []) by (intros ->; discriminate).
      specialize (H1 H). lia.
Qed.

(** C1. After any sequence of signals delivered to a handler, a signal at
    time [T] sets the count to one more than it was when the previous signal
    is less than 2.0 seconds (2000000 microseconds) old, and to 1 otherwise
    (also when there is no previous signal); it records [T] as the time of
    the last interrupt in every case; and the resulting count selects the
    action: 1 invokes the cancel callback, 2 the abort callback, 3 or more
    the exit callback when one was supplied and otherwise raises
    [KeyboardInterrupt].  A cancel or abort callback that was not supplied
    is skipped. *)
Theorem escalation_rule
    (on_cancel on_abort on_exit : option Callback)
    (times : list datetime) (T : datetime) :
  let h := deliver times (UnstickHandler_init on_cancel on_abort on_exit) in
  let h' := (_handle_sigint T h).1.1 in
  let effs := (_handle_sigint T h).1.2 in
  let out := (_handle_sigint T h).2 in
  _interrupt_count h' =
    match last times with
    | Some T0 => if T - T0 <? 2000000 then _interrupt_count h + 1 else 1
    | None => 1
    end
  ∧ _last_interrupt h' = Some T
  ∧ 1 ≤ _interrupt_count h'
  ∧ (_interrupt_count h' = 1 →
       invoked effs = option_list on_cancel ∧ out = Returned)
  ∧ (_interrupt_count h' = 2 →
       invoked effs = option_list on_abort ∧ out = Returned)
  ∧ (3 ≤ _interrupt_count h' →
       match on_exit with
       | Some f => invoked effs = [f] ∧ out = Returned
       | None =>
           invoked effs = []
           ∧ out = Raised (KeyboardInterrupt (lit "User requested emergency exit"))
       end).
Proof.
  intros h h' effs out.
  destruct (deliver_invariant on_cancel on_abort on_exit times)
    as (Hc & Ha & He & Hw & Hl & H0 & H1).
  fold h in Hc, Ha, He, Hw, Hl, H0, H1.
  assert (Hcount : _interrupt_count h' = next_count h T).
  { subst h'. by rewrite handle_sigint_state. }
  assert (Hge : 1 ≤ next_count h T).
  { unfold next_count. rewrite Hl, Hw.
    destruct (last times) as [t0|] eqn:El; [|lia].
    destruct (T - t0 <? 2000000); [|lia].
    assert (times ≠ []) by (intros ->; discriminate).
    specialize (H1 H). lia. }
  split.
  { rewrite Hcount. unfold next_count. by rewrite Hl, Hw. }
  split.
  { subst h'. by rewrite handle_sigint_state. }
  split; [lia|].
  rewrite Hcount. subst effs out. unfold _handle_sigint. simpl.
  rewrite Hc, Ha, He.
  split; [|split].
  - intros ->. simpl. by destruct on_cancel.
  - intros ->. simpl. by destruct on_abort.
  - intros H3.
    destruct (next_count h T =? 1) eqn:E1; [apply Z.eqb_eq in E1; lia|].
    destruct (next_count h T =? 2) eqn:E2; [apply Z.eqb_eq in E2; lia|].
    by destruct on_exit.
Qed.

(** *** The wait primitive *)






End UnstickFacts.

(** ** Properties of the display sink *)

Module TerminalFacts.
Import TerminalPy.

Lemma truncate_long width content :
  5 ≤ width → len content > width - 2 →
  truncate width content = take (Z.to_nat (width - 5)) content ++ lit "..."
  ∧ len (truncate width content) = width - 2.
Proof.
  intros Hw Hlong. unfold truncate.
  destruct (len content >? width - 2) eqn:E; [|lia].
  unfold slice_to. destruct (width - 2 - 3 <? 0) eqn:E'; [lia|].
  replace (width - 2 - 3) with (width - 5) by lia.
  split; [reflexivity|].
  unfold len in *. rewrite length_app, length_take. simpl. lia.
Qed.

Lemma truncate_short width content :
  len content ≤ width - 2 → truncate width content = content.
Proof.
  intros Hshort. unfold truncate.
  destruct (len content >? width - 2) eqn:E; [lia|reflexivity].
Qed.

(** A repeated [update] with the same content changes nothing, whatever the
    state of the line and of the stream. *)
Lemma update_idempotent content sl io :
  update content (update content sl io).1 (update content sl io).2
  = update content sl io.
Proof.
  destruct (update content sl io) as [sl1 io1] eqn:E. simpl.
  unfold update in E. destruct (_visible sl) eqn:Hv; simpl in E.
  - destruct (decide (truncate (_width sl) content = _last_content sl)) as [Heq|Hne].
    + inversion E; subst sl1 io1. unfold update. rewrite Hv. simpl.
      destruct (decide (truncate (_width sl) content = _last_content sl)); done.
    + unfold _write in E. destruct (broken io) eqn:Hb; simpl in E;
        inversion E; subst sl1 io1; unfold update; simpl; [reflexivity|].
      destruct (decide (truncate (_width sl) content
                        = truncate (_width sl) content)); done.
  - inversion E; subst sl1 io1. unfold update. rewrite Hv. reflexivity.
Qed.

(** C8.  The claim fails on a narrow line: on a visible line four columns
    wide the limit is 2, the slice bound [max_width - 3] is negative, and
    six characters of content are cut to five followed by the marker.  The
    text emitted is eight characters long, more than the limit, the width
    and the content itself. *)
Lemma narrow_line_exceeds_limit :
  let sl := {| _position := lit "inline"; _visible := true;
               _last_content := []; _width := 4 |} in
  let io := {| has_isatty := true; isatty := true; broken := false;
               written := [] |} in
  _last_content (update (lit "abcdef") sl io).1 = lit "abcde..."
  ∧ written (update (lit "abcdef") sl io).2
    = [framed (lit "inline") (lit "abcde...")]
  ∧ len (_last_content (update (lit "abcdef") sl io).1) = 8
  ∧ ¬ (len (_last_content (update (lit "abcdef") sl io).1) ≤ _width sl - 2).
Proof.
  simpl. split; [reflexivity|]. split; [reflexivity|].
  split; [reflexivity|]. vm_compute. intros H. apply H. reflexivity.
Qed.

(** X19. On a visible line at least 5 columns wide, content longer than
    the width minus 2 is cut to exactly that limit, its last three
    characters being the marker [...]; shorter content is kept whole; so the
    text shown never exceeds the limit.  The call writes the shown content
    in its escape codes when it differs from the content last shown and the
    stream works, and nothing otherwise; and a second call with the same
    content changes neither the line nor the stream. *)
Theorem update_truncates_and_skips_repeats
    (content : str) (sl : StatusLine) (io : TextIO) :
  _visible sl = true →
  5 ≤ _width sl →
  let shown := truncate (_width sl) content in
  let first := update content sl io in
  (if len content >? _width sl - 2
   then shown = take (Z.to_nat (_width sl - 5)) content ++ lit "..."
        ∧ len shown = _width sl - 2
   else shown = content)
  ∧ len shown ≤ _width sl - 2
  ∧ written first.2
    = written io
        ++ (if decide (shown = _last_content sl) then []
            else if broken io then []
            else [framed (_position sl) shown])
  ∧ (_visible first.1 = true → _last_content first.1 = shown)
  ∧ update content first.1 first.2 = first.
Proof.
  intros Hv Hw shown first.
  split.
  { destruct (len content >? _width sl - 2) eqn:E.
    - apply truncate_long; lia.
    - apply truncate_short; lia. }
  split.
  { subst shown. destruct (Z_gt_le_dec (len content) (_width sl - 2)) as [Hl|Hs].
    - destruct (truncate_long (_width sl) content Hw Hl) as [_ ->]. lia.
    - by rewrite truncate_short. }
  split; [|split].
  - subst first shown. unfold update. rewrite Hv. simpl.
    destruct (decide (truncate (_width sl) content = _last_content sl));
      [by rewrite app_nil_r|].
    unfold _write. destruct (broken io); simpl; [by rewrite app_nil_r | done].
  - subst first shown. unfold update. rewrite Hv. simpl.
    destruct (decide (truncate (_width sl) content = _last_content sl)) as [->|];
      [done|].
    unfold _write. destruct (broken io); simpl; [done|done].
  - apply update_idempotent.
Qed.

Lemma update_truncates_and_skips_repeats_witness :
  let sl := {| _position := lit "inline"; _visible := true;
               _last_content := []; _width := 20 |} in
  let io := {| has_isatty := true; isatty := true; broken := false;
               written := [] |} in
  len (truncate 20 (lit "the quick brown fox jumps")) ≤ 18.
Proof.
  intros sl io.
  refine (proj1 (proj2
    (update_truncates_and_skips_repeats (lit "the quick brown fox jumps") sl io _ _))).
  - reflexivity.
  - simpl. lia.
Defined.

End TerminalFacts.

(** ** Properties of the event dispatcher *)

Module HookFacts.
Import HookPy.

(** C2. On [llm:response] the status becomes [processing] and the streaming
    flag is cleared.  A token count in the payload is added to the output
    counter and the input counter is kept.  Without a token count, a usage
    mapping sets the input counter to its [input_tokens] entry when it has
    one and adds its [output_tokens] entry, when it has one, to the output
    counter.  With neither key both counters are kept.  No other field
    changes, and the event name resolves to this handler. *)
Theorem llm_response_transition (payload : Payload) (s : SessionState) :
  let s' := _handle_llm_response payload s in
  status s' = lit "processing"
  ∧ is_streaming s' = false
  ∧ match pl_token_count payload with
    | Some n =>
        output_tokens s' = output_tokens s + n
        ∧ input_tokens s' = input_tokens s
    | None =>
        match pl_usage payload with
        | Some usage =>
            input_tokens s'
              = default (input_tokens s) (usage !! lit "input_tokens")
            ∧ output_tokens s'
              = output_tokens s + default 0 (usage !! lit "output_tokens")
        | None =>
            input_tokens s' = input_tokens s
            ∧ output_tokens s' = output_tokens s
        end
    end
  ∧ session_id s' = session_id s ∧ started_at s' = started_at s
  ∧ current_tool s' = current_tool s ∧ turn_count s' = turn_count s
  ∧ last_activity s' = last_activity s
  ∧ active_subsessions s' = active_subsessions s
  ∧ resolve (lit "llm:response") = Some H_llm_response.
Proof.
  unfold _handle_llm_response.
  destruct (pl_token_count payload) as [n|]; simpl.
  { repeat split; reflexivity. }
  destruct (pl_usage payload) as [usage|]; simpl.
  - destruct (usage !! lit "input_tokens") as [i|];
      destruct (usage !! lit "output_tokens") as [o|]; simpl;
      repeat split; try reflexivity; lia.
  - repeat split; reflexivity.
Qed.

(** C4, refuted as stated: a 60-character error message gives a label of 57
    characters, the 7 of the prefix and 50 of the message. *)
Lemma session_error_label_exceeds_50 :
  let payload :=
    {| pl_session_id := None; pl_error := Some (replicate 60 120%N);
       pl_token_count := None; pl_usage := None; pl_tool_name := None;
       pl_name := None; pl_agent := None |} in
  let s' := _handle_session_error payload SessionState_default in
  current_tool s' = Some (lit "Error: " ++ replicate 50 120%N)
  ∧ len (default [] (current_tool s')) = 57
  ∧ ¬ (len (default [] (current_tool s')) ≤ 50).
Proof.
  simpl. split; [reflexivity|]. split; [reflexivity|].
  vm_compute. intros H. apply H. reflexivity.
Qed.

(** C4, as the code has it.  On [session:error] the status becomes [error]
    and the current tool becomes the prefix [Error: ] followed by the first
    50 characters of the payload's error message, or of [Unknown error] when
    the payload has none: the message part never exceeds 50 characters and
    the whole label never exceeds 57.  No other field changes. *)
Theorem session_error_transition (payload : Payload) (s : SessionState) :
  let s' := _handle_session_error payload s in
  let message := default (lit "Unknown error") (pl_error payload) in
  status s' = lit "error"
  ∧ current_tool s' = Some (lit "Error: " ++ take 50 message)
  ∧ len (take 50 message) ≤ 50
  ∧ len (lit "Error: " ++ take 50 message) ≤ 57
  ∧ (len message ≤ 50 → take 50 message = message)
  ∧ session_id s' = session_id s ∧ started_at s' = started_at s
  ∧ input_tokens s' = input_tokens s ∧ output_tokens s' = output_tokens s
  ∧ turn_count s' = turn_count s ∧ is_streaming s' = is_streaming s
  ∧ last_activity s' = last_activity s
  ∧ active_subsessions s' = active_subsessions s
  ∧ resolve (lit "session:error") = Some H_session_error.
Proof.
  intros s' message.
  split; [reflexivity|]. split; [reflexivity|].
  split; [unfold len; rewrite length_take; lia|].
  split.
  { unfold len. rewrite length_app, length_take.
    change (length (lit "Error: ")) with 7%nat. lia. }
  split; [intros Hl; apply take_ge; unfold len in Hl; lia|].
  repeat split; reflexivity.
Qed.

(** C5, refuted as stated: a sub-session spawned under the empty id stays in
    the map when its completion arrives, and the status stays
    [delegating]. *)
Lemma empty_sub_id_is_not_removed :
  let spawned :=
    {| pl_session_id := Some []; pl_error := None; pl_token_count := None;
       pl_usage := None; pl_tool_name := None; pl_name := None;
       pl_agent := Some (lit "explorer") |} in
  let completed :=
    {| pl_session_id := Some []; pl_error := None; pl_token_count := None;
       pl_usage := None; pl_tool_name := None; pl_name := None;
       pl_agent := None |} in
  let s1 := _handle_task_agent_spawned spawned SessionState_default in
  let s2 := _handle_task_agent_complete completed s1 in
  active_subsessions s1 !! [] = Some (lit "explorer")
  ∧ active_subsessions s2 !! [] = Some (lit "explorer")
  ∧ status s2 = lit "delegating".
Proof.
  simpl. split; [apply lookup_insert_eq|].
  unfold _handle_task_agent_complete. simpl.
  rewrite bool_decide_eq_false_2.
  - simpl. split; [apply lookup_insert_eq | reflexivity].
  - simpl. intros H. apply (f_equal (λ m : gmap str str, m !! [])) in H.
    rewrite lookup_insert_eq, lookup_empty in H. discriminate.
Qed.

Lemma complete_shape payload s :
  ∃ mid,
    _handle_task_agent_complete payload s
    = (if bool_decide (active_subsessions mid = ∅)
       then set_current_tool None (set_status (lit "thinking") mid)
       else mid)
    ∧ active_subsessions mid
      = match pl_session_id payload with
        | Some (c :: id) => delete (c :: id) (active_subsessions s)
        | _ => active_subsessions s
        end
    ∧ status mid = status s ∧ current_tool mid = current_tool s.
Proof.
  unfold _handle_task_agent_complete.
  eexists. split; [reflexivity|].
  destruct (pl_session_id payload) as [[|c id]|]; try done.
  cbn [truthy andb]. case_bool_decide as E; [done|].
  rewrite <- eq_None_not_Some in E. by rewrite delete_id.
Qed.

(** C5, as the code has it.  On [task:agent_spawned] the agent name is
    stored under the sub-session id (defaults [unknown] and [agent]), the
    status becomes [delegating] and the current tool becomes the arrow, a
    space and the agent name.  On [task:agent_complete] an id that is present
    in the payload and not empty is deleted from the map, which is a no-op
    when it is not a key; an absent or empty id deletes nothing.  If the map
    is empty afterwards the status becomes [thinking] and the current tool is
    cleared, otherwise both are kept. *)
Theorem subsession_tracking (payload : Payload) (s : SessionState) :
  let sub_id := default (lit "unknown") (pl_session_id payload) in
  let agent := default (lit "agent") (pl_agent payload) in
  let spawned := _handle_task_agent_spawned payload s in
  let completed := _handle_task_agent_complete payload s in
  active_subsessions spawned = <[sub_id := agent]> (active_subsessions s)
  ∧ active_subsessions spawned !! sub_id = Some agent
  ∧ status spawned = lit "delegating"
  ∧ current_tool spawned = Some ([0x2192; 32]%N ++ agent)
  ∧ active_subsessions completed
    = match pl_session_id payload with
      | Some (c :: id) => delete (c :: id) (active_subsessions s)
      | _ => active_subsessions s
      end
  ∧ match pl_session_id payload with
    | Some (c :: id) => active_subsessions completed !! (c :: id) = None
    | _ => True
    end
  ∧ (if bool_decide (active_subsessions completed = ∅)
     then status completed = lit "thinking" ∧ current_tool completed = None
     else status completed = status s ∧ current_tool completed = current_tool s)
  ∧ resolve (lit "task:agent_spawned") = Some H_task_agent_spawned
  ∧ resolve (lit "task:agent_complete") = Some H_task_agent_complete.
Proof.
  intros sub_id agent spawned completed.
  split; [reflexivity|]. split; [apply lookup_insert_eq|].
  split; [reflexivity|]. split; [reflexivity|].
  destruct (complete_shape payload s) as (mid & Hres & Hmid & Hst & Htool).
  assert (Hact : active_subsessions completed = active_subsessions mid).
  { subst completed. rewrite Hres. by case_bool_decide. }
  split; [by rewrite Hact|].
  split.
  { rewrite Hact, Hmid. destruct (pl_session_id payload) as [[|c id]|]; try done.
    apply lookup_delete_eq. }
  split; [|split; reflexivity].
  rewrite Hact. subst completed. rewrite Hres.
  case_bool_decide; [done|]. by rewrite Hst, Htool.
Qed.

Section Clock.

Variable clock : nat → datetime.

Lemma run_handler_facts hd p h w :
  _enabled (run_handler clock hd p h w).1 = _enabled h
  ∧ (clock_reads w ≤ clock_reads (run_handler clock hd p h w).2)%nat.
Proof.
  destruct hd; simpl; try (split; [reflexivity | lia]).
  unfold _handle_session_end. cbn.
  destruct (_update_task h), (_status_line h), (started_at (_state h));
      cbn; split; (reflexivity || lia).
Qed.

Lemma dispatch_facts ev p h w :
  _enabled (dispatch clock ev p h w).1 = _enabled h
  ∧ (clock_reads w ≤ clock_reads (dispatch clock ev p h w).2)%nat.
Proof.
  unfold dispatch. destruct (resolve ev); [apply run_handler_facts|].
  simpl. split; [reflexivity | lia].
Qed.

Lemma on_event_enabled ev p h w :
  _enabled h = true →
  on_event clock ev p h w =
    (with_state
       (set_last_activity
          (Some (clock (clock_reads (dispatch clock ev p h w).2)))
          (_state (dispatch clock ev p h w).1))
       (dispatch clock ev p h w).1,
     mkWorld (S (clock_reads (dispatch clock ev p h w).2))
       (created (dispatch clock ev p h w).2)
       (effects (dispatch clock ev p h w).2)).
Proof.
  intros He. unfold on_event. rewrite He. simpl.
  by destruct (dispatch clock ev p h w) as [h1 w1].
Qed.

Lemma on_event_disabled ev p h w :
  _enabled h = false → on_event clock ev p h w = (h, w).
Proof. intros He. unfold on_event. by rewrite He. Qed.

(** One delivery to an enabled hook: the hook stays enabled, and its
    [last_activity] is a clock reading made no earlier than the delivery. *)
Lemma deliver_enabled d h w :
  _enabled h = true →
  ∃ i, (clock_reads w ≤ i)%nat
       ∧ _enabled (deliver clock d (h, w)).1 = true
       ∧ last_activity (_state (deliver clock d (h, w)).1) = Some (clock i)
       ∧ clock_reads (deliver clock d (h, w)).2 = S i.
Proof.
  intros He. unfold deliver. rewrite on_event_enabled by done.
  match goal with |- context [dispatch clock ?e ?p ?h ?w'] =>
    destruct (dispatch_facts e p h w') as [Hen Hle];
    exists (clock_reads (dispatch clock e p h w').2) end.
  simpl in *. split; [lia|]. split; [congruence|]. split; reflexivity.
Qed.

Lemma activity_log_cons d ds hw :
  activity_log clock (d :: ds) hw
  = last_activity (_state (deliver clock d hw).1)
      :: activity_log clock ds (deliver clock d hw).
Proof. reflexivity. Qed.

Lemma activity_log_readings ds : ∀ h w j b,
  _enabled h = true →
  activity_log clock ds (h, w) !! j = Some b →
  ∃ i, (clock_reads w ≤ i)%nat ∧ b = Some (clock i).
Proof.
  induction ds as [|d ds IH]; intros h w j b He Hj; [done|].
  destruct (deliver_enabled d h w He) as (i & Hi & He' & Hl & Hr).
  rewrite activity_log_cons in Hj.
  destruct (deliver clock d (h, w)) as [h' w'] eqn:Ed.
  cbn [fst snd] in *. destruct j as [|j]; cbn [lookup list_lookup] in Hj.
  - inversion Hj; subst b. exists i. by rewrite Hl.
  - destruct (IH h' w' j b He' Hj) as (i' & Hi' & ->).
    exists i'. split; [lia | done].
Qed.

Lemma activity_log_sorted ds : ∀ h w i j a b,
  (∀ m n, (m ≤ n)%nat → clock m ≤ clock n) →
  _enabled h = true →
  (i ≤ j)%nat →
  activity_log clock ds (h, w) !! i = Some (Some a) →
  activity_log clock ds (h, w) !! j = Some (Some b) →
  a ≤ b.
Proof.
  induction ds as [|d ds IH]; intros h w i j a b Hmono He Hij Hi Hj; [done|].
  destruct (deliver_enabled d h w He) as (k & Hk & He' & Hl & Hr).
  rewrite activity_log_cons in Hi, Hj.
  destruct (deliver clock d (h, w)) as [h' w'] eqn:Ed.
  cbn [fst snd] in *.
  destruct i as [|i], j as [|j]; cbn [lookup list_lookup] in Hi, Hj; try lia.
  - rewrite Hl in Hi, Hj. inversion Hi; inversion Hj; subst. lia.
  - destruct (activity_log_readings ds h' w' j (Some b) He' Hj) as (k' & Hk' & Hb).
    rewrite Hl in Hi. inversion Hi; inversion Hb; subst.
    apply Hmono. lia.
  - apply (IH h' w' i j a b); try done. lia.
Qed.

Lemma activity_log_length ds : ∀ hw, length (activity_log clock ds hw) = length ds.
Proof. induction ds as [|d ds IH]; intros hw; simpl; [done|]. by rewrite IH. Qed.

(** C6, as the code has it.  When the capability check succeeded, every
    event handed to [on_event] ends with [last_activity] set to a clock
    reading taken after the handler, if the name resolved to one, has run;
    nothing else of what the handler left is changed.  A name that resolves
    to no handler runs none and raises nothing.  Each of the fourteen
    subscribed names resolves to its own handler.  Over any sequence of
    deliveries [last_activity] is set after each one, and when the clock's
    readings never decrease, neither do its values. *)
Theorem last_activity_touched
    (ev : str) (p : Payload) (h : SessionIndicatorHook) (w : World)
    (ds : list Delivery) :
  _enabled h = true →
  (∀ m n, (m ≤ n)%nat → clock m ≤ clock n) →
  let handled := dispatch clock ev p h w in
  let after := on_event clock ev p h w in
  let log := activity_log clock ds (h, w) in
  after.1 = with_state
              (set_last_activity (Some (clock (clock_reads handled.2)))
                 (_state handled.1))
              handled.1
  ∧ last_activity (_state after.1) = Some (clock (clock_reads handled.2))
  ∧ (clock_reads w ≤ clock_reads handled.2)%nat
  ∧ clock_reads after.2 = S (clock_reads handled.2)
  ∧ effects after.2 = effects handled.2
  ∧ match resolve ev with
    | Some hd => handled = run_handler clock hd p h w
    | None => handled = (h, w)
    end
  ∧ (λ e, (e, resolve e)) <$> SUBSCRIBED_EVENTS
    = [ (lit "session:start", Some H_session_start);
        (lit "session:end", Some H_session_end);
        (lit "session:error", Some H_session_error);
        (lit "llm:request", Some H_llm_request);
        (lit "llm:response", Some H_llm_response);
        (lit "llm:stream_start", Some H_llm_stream_start);
        (lit "llm:stream_chunk", Some H_llm_stream_chunk);
        (lit "llm:stream_end", Some H_llm_stream_end);
        (lit "tool:pre", Some H_tool_pre);
        (lit "tool:post", Some H_tool_post);
        (lit "turn:start", Some H_turn_start);
        (lit "turn:end", Some H_turn_end);
        (lit "task:agent_spawned", Some H_task_agent_spawned);
        (lit "task:agent_complete", Some H_task_agent_complete) ]
  ∧ length log = length ds
  ∧ Forall is_Some log
  ∧ (∀ i j a b, (i ≤ j)%nat →
       log !! i = Some (Some a) → log !! j = Some (Some b) → a ≤ b).
Proof.
  intros He Hmono handled after log.
  subst after. rewrite on_event_enabled by done. fold handled. simpl.
  split; [reflexivity|]. split; [reflexivity|].
  split; [apply dispatch_facts|]. split; [reflexivity|]. split; [reflexivity|].
  split; [subst handled; unfold dispatch; by destruct (resolve ev)|].
  split; [reflexivity|].
  split; [apply activity_log_length|].
  split.
  { apply Forall_lookup. intros j b Hj.
    destruct (activity_log_readings ds h w j b He Hj) as (i & _ & ->). eauto. }
  intros i j a b Hij Hi Hj. by apply (activity_log_sorted ds h w i j a b).
Qed.

(** C10. When the capability check at construction answered that the output
    destination is unsupported, [on_event] returns with the hook and its
    surroundings exactly as they were, for every event name and payload: no
    handler runs, no field of the state changes, [last_activity] included,
    the clock is not read, and no status line or refresh task is created.
    The same holds over any sequence of deliveries. *)
Theorem disabled_hook_ignores_events
    (config : Config) (stderr : TerminalPy.TextIO) (environ : gmap str str)
    (ev : str) (p : Payload) (w : World) (ds : list Delivery) :
  TerminalPy.supports_status_line None stderr environ = false →
  let h := SessionIndicatorHook_init config
             (TerminalPy.supports_status_line None stderr environ) in
  on_event clock ev p h w = (h, w)
  ∧ _state h = SessionState_default
  ∧ _status_line h = None ∧ _update_task h = None
  ∧ (run clock ds (h, w)).1 = h
  ∧ effects (run clock ds (h, w)).2 = effects w
  ∧ created (run clock ds (h, w)).2 = created w.
Proof.
  intros Hs h.
  assert (He : _enabled h = false) by (subst h; simpl; exact Hs).
  split; [by apply on_event_disabled|].
  split; [reflexivity|]. split; [reflexivity|]. split; [reflexivity|].
  clearbody h. revert w.
  induction ds as [|d ds IH]; intros w; [done|].
  unfold run in *. simpl. rewrite on_event_disabled by done.
  specialize (IH (mkWorld (clock_reads w + other_reads d) (created w) (effects w))).
  exact IH.
Qed.

End Clock.

(** C6, refuted as stated: with the capability check failed an event leaves
    [last_activity] unset; and [tool_pre], which is not a subscribed name,
    resolves to the handler of [tool:pre] and runs it. *)
Lemma last_activity_not_always_touched :
  let clock := λ n : nat, Z.of_nat n in
  let disabled := SessionIndicatorHook_init config0 false in
  let enabled := SessionIndicatorHook_init config0 true in
  last_activity
    (_state (on_event clock (lit "tool:pre") empty_payload disabled world0).1)
    = None
  ∧ (lit "tool_pre" ∉ SUBSCRIBED_EVENTS)
  ∧ resolve (lit "tool_pre") = Some H_tool_pre
  ∧ status
      (_state (on_event clock (lit "tool_pre") empty_payload enabled world0).1)
    = lit "executing".
Proof.
  split; [reflexivity|].
  split.
  { apply (bool_decide_unpack (lit "tool_pre" ∉ SUBSCRIBED_EVENTS)).
    vm_compute. exact I. }
  split; reflexivity.
Qed.

Lemma last_activity_touched_witness :
  last_activity
    (_state (on_event (λ n : nat, Z.of_nat n) (lit "tool:pre") empty_payload
               (SessionIndicatorHook_init config0 true) world0).1)
  = Some 0.
Proof.
  refine (proj1 (proj2
    (last_activity_touched (λ n : nat, Z.of_nat n) (lit "tool:pre") empty_payload
       (SessionIndicatorHook_init config0 true) world0 [] _ _))).
  - reflexivity.
  - intros m n Hmn. lia.
Defined.

Lemma disabled_hook_ignores_events_witness :
  let stderr := TerminalPy.mkTextIO true false false [] in
  on_event (λ n : nat, Z.of_nat n) (lit "session:start") empty_payload
    (SessionIndicatorHook_init config0
       (TerminalPy.supports_status_line None stderr ∅)) world0
  = (SessionIndicatorHook_init config0
       (TerminalPy.supports_status_line None stderr ∅), world0).
Proof.
  intros stderr.
  refine (proj1
    (disabled_hook_ignores_events (λ n : nat, Z.of_nat n) config0 stderr ∅
       (lit "session:start") empty_payload world0 [] _)).
  reflexivity.
Defined.

End HookFacts.

(** ** Further properties of the frame sources *)

Module SpinnerExtra.
Import SpinnerPy Specs SpinnerFacts SpinnerCalls.

#[local] Arguments Nat.modulo : simpl never.

(** X1. A spinner, however constructed, is periodic: after as many calls as
    it has frames it is back in the state it started in, so call [k + n]
    returns what call [k] returned, and no call ever fails. *)
Theorem spinner_period (style : str) (frames : option (list str)) (k : nat) :
  let sp := Spinner_init style frames in
  let n := length (_frames sp) in
  advance n sp = Some sp
  ∧ is_Some (kth_frame k sp)
  ∧ kth_frame (k + n) sp = kth_frame k sp.
Proof.
  intros sp n.
  pose proof (Spinner_init_wf style frames) as Hwf. fold sp in Hwf.
  assert (Hn : (0 < n)%nat).
  { subst n. destruct Hwf as [Hc Hi]. lia. }
  split.
  { rewrite advance_wf by done. destruct Hwf as [Hc Hi].
    replace (_index sp) with 0%nat by reflexivity.
    rewrite Hc. fold n. rewrite Nat.add_0_l, Nat.Div0.mod_same.
    subst sp. reflexivity. }
  destruct (kth_frame_wf k sp Hwf) as (f & Hk & Hf).
  destruct (kth_frame_wf (k + n) sp Hwf) as (f' & Hk' & Hf').
  split; [rewrite Hk; eauto|].
  rewrite Hk, Hk'. rewrite <- Hf, <- Hf'. f_equal.
  fold n. replace (_index sp) with 0%nat by reflexivity.
  rewrite !Nat.add_0_l.
  replace (k + n)%nat with (k + 1 * n)%nat by lia.
  by rewrite Nat.Div0.mod_add.
Qed.

(** X2. [current_frame] is the frame the next [next_frame] call returns:
    after [k] calls it reads the frame of call [k]; and straight after
    [reset] it reads the first frame. *)
Theorem current_frame_is_next (style : str) (frames : option (list str)) (k : nat) :
  let sp := Spinner_init style frames in
  ∃ sp' first,
    advance k sp = Some sp'
    ∧ current_frame sp' = kth_frame k sp
    ∧ current_frame sp' = fst <$> next_frame sp'
    ∧ _frames sp !! 0%nat = Some first
    ∧ current_frame (reset sp') = Some first.
Proof.
  intros sp.
  pose proof (Spinner_init_wf style frames) as Hwf. fold sp in Hwf.
  clearbody sp.
  destruct (advance_reset_wf k sp Hwf) as (sp' & Ha & Hwf' & Hfr).
  destruct (next_frame_wf _ Hwf') as (first & Hfirst & _).
  exists sp', first.
  split; [done|].
  assert (Hwfk : wf sp').
  { rewrite advance_wf in Ha by done. inversion Ha; subst sp'.
    destruct Hwf as [Hc Hi]. split; simpl; [done|].
    apply Nat.mod_upper_bound. lia. }
  destruct (next_frame_wf _ Hwfk) as (f & Hf & Hn).
  split; [unfold kth_frame; rewrite Ha, Hn; exact Hf|].
  split; [rewrite Hn; exact Hf|].
  split; [|exact Hfirst].
  change (_frames sp' !! 0%nat = Some first) in Hfirst.
  by rewrite Hfr in Hfirst.
Qed.

Lemma perform_cursors cs : ∀ ss,
  wf (Status.base ss) →
  (Status._streaming_index ss < 14)%nat →
  ∃ frames ss',
    perform cs ss = Some (frames, ss')
    ∧ Status._streaming_index ss'
      = ((Status._streaming_index ss + (tally (Status._status ss) cs).1) `mod` 14)%nat
    ∧ _index (Status.base ss')
      = ((_index (Status.base ss) + (tally (Status._status ss) cs).2)
           `mod` _frame_count (Status.base ss))%nat
    ∧ _frames (Status.base ss') = _frames (Status.base ss)
    ∧ _frame_count (Status.base ss') = _frame_count (Status.base ss).
Proof.
  induction cs as [|c cs IH]; intros ss Hwf Hidx.
  - exists [], ss. simpl. rewrite !Nat.add_0_r.
    destruct Hwf as [Hc Hi]. rewrite !Nat.mod_small by done. done.
  - destruct c as [st|].
    + destruct (IH (Status.set_status st ss) Hwf Hidx)
        as (frames & ss' & Hp & Hs & Hi & Hf & Hn).
      exists frames, ss'. simpl. split; [exact Hp|]. done.
    + cbn [perform tally].
      destruct (tally (Status._status ss) cs) as [a b] eqn:Et.
      unfold Status.next_frame.
      destruct (Status.STATUS_ICONS !! Status._status ss) as [icon|] eqn:Eicon.
      * destruct (IH ss Hwf Hidx) as (frames & ss' & Hp & Hs & Hi & Hf & Hn).
        rewrite Et in Hs, Hi. rewrite Hp. eauto 10.
      * destruct (decide (Status._status ss = lit "streaming")) as [Est|Est].
        -- destruct (lookup_lt_is_Some_2 Status.STREAMING_FRAMES
                       (Status._streaming_index ss)) as [f Hf]; [simpl; lia|].
           rewrite Hf.
           match goal with |- context [perform cs ?x] =>
             destruct (IH x) as (frames & ss' & Hp & Hs & Hi & Hfr & Hn) end.
           { exact Hwf. }
           { simpl. apply Nat.mod_upper_bound. lia. }
           simpl in Hs, Hi, Hfr, Hn. rewrite Et in Hs, Hi. simpl in Hs, Hi.
           rewrite Hp. exists (f :: frames), ss'.
           split; [done|]. split; [|done].
           rewrite Hs. simpl. rewrite Nat.Div0.add_mod_idemp_l. f_equal. lia.
        -- destruct (next_frame_wf _ Hwf) as (f & Hf & Hnext). rewrite Hnext.
           match goal with |- context [perform cs ?x] =>
             destruct (IH x) as (frames & ss' & Hp & Hs & Hi & Hfr & Hn) end.
           { simpl. by apply step_wf. }
           { exact Hidx. }
           simpl in Hs, Hi, Hfr, Hn. rewrite Et in Hs, Hi. simpl in Hs, Hi.
           rewrite Hp. exists (f :: frames), ss'.
           split; [done|]. split; [done|]. split; [|done].
           rewrite Hi. simpl. rewrite Nat.Div0.add_mod_idemp_l. f_equal. lia.
Qed.

(** X3. On a status-aware spinner no sequence of [set_status] and
    [next_frame] calls ever fails, and the two cursors are independent: the
    waveform cursor has advanced once per call made under [streaming], the
    inherited cursor once per call made under a status with no fixed glyph
    other than [streaming], and calls under a fixed-glyph status move
    neither.  A status change never resets a cursor. *)
Theorem status_spinner_cursors (style : str) (cs : list Call) :
  let ss0 := Status.StatusSpinner_init style in
  ∃ frames ss,
    perform cs ss0 = Some (frames, ss)
    ∧ Status._streaming_index ss = ((tally (lit "thinking") cs).1 `mod` 14)%nat
    ∧ _index (Status.base ss)
      = ((tally (lit "thinking") cs).2 `mod` length (_frames (Status.base ss0)))%nat
    ∧ _frames (Status.base ss) = _frames (Status.base ss0).
Proof.
  intros ss0.
  destruct (perform_cursors cs ss0) as (frames & ss & Hp & Hs & Hi & Hf & Hn).
  { apply Spinner_init_wf. }
  { simpl. lia. }
  exists frames, ss. split; [exact Hp|].
  split; [exact Hs|]. split; [|exact Hf].
  rewrite Hi. reflexivity.
Qed.

End SpinnerExtra.

(** ** Further properties of the interrupt escalation handler *)

Module UnstickExtra.
Import UnstickPy UnstickFacts Specs2.



Lemma deliver_cons now times h :
  deliver (now :: times) h = deliver times (_handle_sigint now h).1.1.
Proof. reflexivity. Qed.

Lemma deliver_app earlier later h :
  deliver (earlier ++ later) h = deliver later (deliver earlier h).
Proof. unfold deliver. apply foldl_app. Qed.

Lemma deliver_rapid burst : ∀ h t,
  _last_interrupt h = Some t →
  _escalation_window h = 2000000 →
  rapid 2000000 (t :: burst) = true →
  _interrupt_count (deliver burst h) = _interrupt_count h + Z.of_nat (length burst).
Proof.
  induction burst as [|t1 burst IH]; intros h t Hl Hw Hr.
  - simpl. lia.
  - rewrite deliver_cons.
    cbn [rapid] in Hr. apply andb_true_iff in Hr as [Hgap Hr].
    rewrite (IH _ t1); [| by rewrite handle_sigint_state
                        | by rewrite handle_sigint_state | exact Hr].
    rewrite handle_sigint_state. simpl. unfold next_count.
    rewrite Hl, Hw, Hgap. lia.
Qed.

(** X5. The counter counts the presses of the current burst.  When a signal
    arrives 2.0 seconds or more after the one before it, or is the first
    ever, and each following signal comes less than 2.0 seconds after its
    predecessor, the counter after the burst is the number of signals in the
    burst, whatever happened earlier; in particular it is not capped at
    3. *)
Theorem burst_counts_presses
    (on_cancel on_abort on_exit : option Callback)
    (earlier burst : list datetime) (t : datetime) :
  match last earlier with
  | Some t0 => 2000000 ≤ t - t0
  | None => True
  end →
  rapid 2000000 (t :: burst) = true →
  _interrupt_count
    (deliver (earlier ++ t :: burst)
       (UnstickHandler_init on_cancel on_abort on_exit))
  = Z.of_nat (length (t :: burst)).
Proof.
  intros Hgap Hr.
  destruct (deliver_invariant on_cancel on_abort on_exit earlier)
    as (_ & _ & _ & Hw & Hl & _ & _).
  rewrite deliver_app.
  set (h := deliver earlier (UnstickHandler_init on_cancel on_abort on_exit)) in *.
  rewrite deliver_cons.
  rewrite (deliver_rapid burst _ t); [| by rewrite handle_sigint_state
                                      | by rewrite handle_sigint_state | exact Hr].
  rewrite handle_sigint_state. simpl. unfold next_count. rewrite Hl, Hw.
  destruct (last earlier) as [t0|]; [|lia].
  destruct (t - t0 <? 2000000) eqn:E; [apply Z.ltb_lt in E; lia | lia].
Qed.

Lemma burst_counts_presses_witness :
  _interrupt_count
    (deliver ([0; 500000] ++ 9000000 :: [9500000; 10000000; 10500000])
       (UnstickHandler_init None None None))
  = 4.
Proof.
  refine (burst_counts_presses None None None [0; 500000]
            [9500000; 10000000; 10500000] 9000000 _ _).
  - simpl. lia.
  - reflexivity.
Defined.



End UnstickExtra.

(** ** Further properties of the display sink *)

Module TerminalExtra.
Import TerminalPy TerminalCalls TerminalFacts.

(** X7. The capability check answers yes exactly when the stream checked
    (the one given, else standard error) has an [isatty] method that answers
    yes, [TERM] is not [dumb], and neither [NO_COLOR] nor
    [AMPLIFIER_NO_STATUS] is set to a non-empty value.  A variable set to the
    empty string does not disable the line. *)
Theorem supports_status_line_iff
    (stream : option TextIO) (stderr : TextIO) (environ : gmap str str) :
  let checked := default stderr stream in
  supports_status_line stream stderr environ = true ↔
    has_isatty checked = true ∧ isatty checked = true
    ∧ environ !! lit "TERM" ≠ Some (lit "dumb")
    ∧ default [] (environ !! lit "NO_COLOR") = []
    ∧ default [] (environ !! lit "AMPLIFIER_NO_STATUS") = [].
Proof.
  intros checked. unfold supports_status_line.
  replace (match stream with Some st => st | None => stderr end) with checked
    by (by destruct stream).
  unfold env_truthy.
  destruct (has_isatty checked), (isatty checked); simpl;
    try (split; [discriminate | intros (? & ? & _); discriminate]).
  destruct (environ !! lit "TERM") as [term|] eqn:Et; simpl.
  - destruct (decide (term = lit "dumb")) as [->|Hne].
    + split; [discriminate | intros (_ & _ & H & _); by destruct H].
    + destruct (environ !! lit "NO_COLOR") as [[|c nc]|];
        destruct (environ !! lit "AMPLIFIER_NO_STATUS") as [[|a ns]|]; simpl;
        split; try discriminate; try (intros (_ & _ & _ & H1 & H2); discriminate);
        intros _; repeat split; congruence.
  - destruct (decide ([] = lit "dumb")) as [Hd|_]; [discriminate Hd|].
    destruct (environ !! lit "NO_COLOR") as [[|c nc]|];
      destruct (environ !! lit "AMPLIFIER_NO_STATUS") as [[|a ns]|]; simpl;
      split; try discriminate; try (intros (_ & _ & _ & H1 & H2); discriminate);
      intros _; repeat split; congruence.
Qed.

Lemma hide_hidden sl io : _visible (hide sl io).1 = false.
Proof.
  unfold hide. destruct (_visible sl) eqn:Hv; simpl; [|done].
  unfold _write. destruct (broken io) eqn:Hbr; simpl.
  - destruct (decide (_position sl = lit "bottom")); simpl; [|done].
    by destruct (broken io).
  - by destruct (decide (_position sl = lit "bottom")).
Qed.

(** X8. [show] and [hide] are idempotent, on a working and on a failing
    stream alike: a second [show] after a [show], or a second [hide] after a
    [hide], changes neither the line nor the stream. *)
Theorem show_and_hide_are_idempotent (sl : StatusLine) (io : TextIO) :
  show (show sl io).1 (show sl io).2 = show sl io
  ∧ hide (hide sl io).1 (hide sl io).2 = hide sl io.
Proof.
  split.
  - destruct (show sl io) as [sl1 io1] eqn:E. simpl. unfold show in E.
    destruct (_visible sl) eqn:Hv.
    { inversion E; subst sl1 io1. unfold show. by rewrite Hv. }
    simpl in E. destruct (decide (_position sl = lit "bottom")) as [Hb|Hb].
    + unfold _write in E. destruct (broken io) eqn:Hbr; simpl in E;
        inversion E; subst sl1 io1; unfold show; simpl; [|reflexivity].
      destruct (decide (_position sl = lit "bottom")); [|done].
      unfold _write. by rewrite Hbr.
    + inversion E; subst sl1 io1. unfold show. simpl. reflexivity.
  - pose proof (hide_hidden sl io) as Hh.
    destruct (hide sl io) as [sl1 io1]. simpl in *.
    unfold hide. by rewrite Hh.
Qed.

Lemma failing_stream_untouched cs : ∀ sl io,
  broken io = true → (perform cs (sl, io)).2 = io.
Proof.
  intros sl io Hbr.
  assert (Hcall : ∀ c sl', (call c (sl', io)).2 = io).
  { intros [| |c] sl'; simpl.
    - unfold show, _write.
      destruct (_visible sl'); simpl; rewrite ?Hbr; simpl; [done|].
      case_decide; simpl; rewrite ?Hbr; done.
    - unfold hide, _write.
      destruct (_visible sl'); simpl; rewrite ?Hbr; simpl; [|done].
      case_decide; simpl; rewrite ?Hbr; done.
    - unfold update, _write.
      destruct (_visible sl'); simpl; rewrite ?Hbr; simpl; [|done].
      case_decide; simpl; rewrite ?Hbr; done. }
  induction cs as [|c cs IH] using rev_ind; [done|].
  unfold perform in *. rewrite foldl_app. simpl.
  destruct (foldl (λ st c0, call c0 st) (sl, io) cs) as [sl' io'].
  simpl in IH. subst io'. apply Hcall.
Qed.

(** X9. A failing stream is never written to and hides the line.  Whatever
    calls are made, the stream is left as it was; an [update] with new
    content on a visible line marks the line hidden, although it has
    recorded the content as shown; and from then on [update] does nothing at
    all. *)
Theorem failing_stream_hides_the_line
    (cs : list Call) (content later : str) (sl : StatusLine) (io : TextIO) :
  broken io = true →
  _visible sl = true →
  truncate (_width sl) content ≠ _last_content sl →
  (perform cs (sl, io)).2 = io
  ∧ (update content sl io).2 = io
  ∧ _visible (update content sl io).1 = false
  ∧ _last_content (update content sl io).1 = truncate (_width sl) content
  ∧ update later (update content sl io).1 (update content sl io).2
    = update content sl io.
Proof.
  intros Hbr Hv Hne.
  split; [by apply failing_stream_untouched|].
  unfold update. rewrite Hv. simpl.
  destruct (decide (truncate (_width sl) content = _last_content sl)); [done|].
  unfold _write. rewrite Hbr. simpl. done.
Qed.

Lemma failing_stream_hides_the_line_witness :
  let sl := {| _position := lit "inline"; _visible := true;
               _last_content := []; _width := 80 |} in
  let io := {| has_isatty := true; isatty := true; broken := true;
               written := [lit "earlier output"] |} in
  (perform [Update (lit "thinking"); Hide; Show; Update (lit "idle")] (sl, io)).2 = io.
Proof.
  intros sl io.
  refine (proj1 (failing_stream_hides_the_line
    [Update (lit "thinking"); Hide; Show; Update (lit "idle")]
    (lit "thinking") (lit "idle") sl io _ _ _)).
  - reflexivity.
  - reflexivity.
  - discriminate.
Defined.

Lemma update_on_working_stream content sl io :
  _visible sl = true → broken io = false →
  _visible (update content sl io).1 = true
  ∧ _last_content (update content sl io).1 = truncate (_width sl) content
  ∧ _position (update content sl io).1 = _position sl
  ∧ _width (update content sl io).1 = _width sl
  ∧ broken (update content sl io).2 = false.
Proof.
  intros Hv Hbr. unfold update. rewrite Hv. simpl.
  destruct (decide (truncate (_width sl) content = _last_content sl)) as [Heq|Hne].
  - simpl. done.
  - unfold _write. rewrite Hbr. simpl. done.
Qed.

Lemma write_on_working_stream text sl io :
  broken io = false →
  _write text sl io =
    (sl, {| has_isatty := has_isatty io; isatty := isatty io;
            broken := broken io; written := written io ++ [text] |}).
Proof. intros Hbr. unfold _write. by rewrite Hbr. Qed.

Lemma hide_on_working_stream sl io :
  _visible sl = true → broken io = false →
  hide sl io =
    ({| _position := _position sl; _visible := false;
        _last_content := _last_content sl; _width := _width sl |},
     {| has_isatty := has_isatty io; isatty := isatty io; broken := broken io;
        written := written io ++ [ANSI_CLEAR_LINE ++ ANSI_MOVE_TO_COL_1]
          ++ (if decide (_position sl = lit "bottom")
              then [ESC ++ lit "[1A"] else []) |}).
Proof.
  intros Hv Hbr. unfold hide. rewrite Hv. cbn [negb].
  rewrite write_on_working_stream by done. cbn [_position].
  destruct (decide (_position sl = lit "bottom")).
  - rewrite write_on_working_stream by done.
    cbn [has_isatty isatty broken written]. by rewrite <- app_assoc.
  - by rewrite app_nil_r.
Qed.

Lemma show_on_working_stream sl io :
  _visible sl = false → broken io = false →
  _visible (show sl io).1 = true
  ∧ _last_content (show sl io).1 = _last_content sl
  ∧ _width (show sl io).1 = _width sl.
Proof.
  intros Hv Hbr. unfold show. rewrite Hv. simpl.
  destruct (decide (_position sl = lit "bottom")); [|done].
  unfold _write. rewrite Hbr. done.
Qed.

(** X10. [hide] keeps the content last shown, and [update] compares against
    it even after the line was cleared: on a working stream, when a visible
    line showing some content is hidden, shown again and updated with that
    same content, the update writes nothing, so the line stays blank until
    the content changes. *)
Theorem reshown_line_skips_unchanged_content
    (content : str) (sl : StatusLine) (io : TextIO) :
  _visible sl = true →
  broken io = false →
  let shown := update content sl io in
  let hidden := hide shown.1 shown.2 in
  let reshown := show hidden.1 hidden.2 in
  let again := update content reshown.1 reshown.2 in
  _visible reshown.1 = true
  ∧ _last_content reshown.1 = truncate (_width sl) content
  ∧ written hidden.2
    = written shown.2
        ++ [ANSI_CLEAR_LINE ++ ANSI_MOVE_TO_COL_1]
        ++ (if decide (_position sl = lit "bottom") then [ESC ++ lit "[1A"] else [])
  ∧ again = reshown.
Proof.
  intros Hv Hbr shown hidden reshown again.
  destruct (update_on_working_stream content sl io Hv Hbr)
    as (Hv1 & Hl1 & Hp1 & Hw1 & Hb1).
  fold shown in Hv1, Hl1, Hp1, Hw1, Hb1.
  assert (Hh : hidden = hide shown.1 shown.2) by reflexivity.
  rewrite (hide_on_working_stream _ _ Hv1 Hb1) in Hh.
  destruct (show_on_working_stream hidden.1 hidden.2) as (Hv3 & Hl3 & Hw3).
  { by rewrite Hh. }
  { rewrite Hh. exact Hb1. }
  fold reshown in Hv3, Hl3, Hw3.
  assert (Hl : _last_content reshown.1 = truncate (_width sl) content).
  { rewrite Hl3, Hh. simpl. exact Hl1. }
  split; [exact Hv3|]. split; [exact Hl|].
  split; [rewrite Hh; simpl; by rewrite Hp1|].
  subst again. unfold update. rewrite Hv3. simpl.
  rewrite Hw3, Hh. simpl. rewrite Hw1.
  destruct (decide (truncate (_width sl) content = _last_content reshown.1));
    [by destruct reshown | congruence].
Qed.

Lemma reshown_line_skips_unchanged_content_witness :
  let sl := {| _position := lit "bottom"; _visible := true;
               _last_content := []; _width := 80 |} in
  let io := {| has_isatty := true; isatty := true; broken := false;
               written := [] |} in
  let shown := update (lit "thinking") sl io in
  let hidden := hide shown.1 shown.2 in
  let reshown := show hidden.1 hidden.2 in
  update (lit "thinking") reshown.1 reshown.2 = reshown.
Proof.
  intros sl io.
  refine (proj2 (proj2 (proj2
    (reshown_line_skips_unchanged_content (lit "thinking") sl io _ _)))).
  - reflexivity.
  - reflexivity.
Defined.

(** X11. A progress bar never runs past its total: after [update] or
    [increment] the current value is at most the total, and equals the value
    asked for whenever that is within the total.  Increments add up: an
    increment followed by a non-negative increment is one increment by the
    sum, and a full bar stays full under non-negative increments. *)
Theorem progress_never_exceeds_total
    (pb : ProgressBar) (value first second : Z) :
  0 ≤ second →
  current (progress_update value pb) ≤ total pb
  ∧ current (increment first pb) ≤ total pb
  ∧ (value ≤ total pb → current (progress_update value pb) = value)
  ∧ increment second (increment first pb) = increment (first + second) pb
  ∧ (current pb = total pb → increment second pb = pb)
  ∧ total (increment first pb) = total pb ∧ width (increment first pb) = width pb.
Proof.
  intros Hs. unfold increment, progress_update. simpl.
  split; [lia|]. split; [lia|]. split; [lia|].
  split; [f_equal; lia|].
  split; [|done].
  intros Hfull. destruct pb as [t c w]. simpl in *. subst c. f_equal. lia.
Qed.

Lemma progress_never_exceeds_total_witness :
  increment 2 (increment 3 (ProgressBar_init 10 10))
  = increment (3 + 2) (ProgressBar_init 10 10).
Proof.
  refine (proj1 (proj2 (proj2 (proj2
    (progress_never_exceeds_total (ProgressBar_init 10 10) 4 3 2 _))))).
  lia.
Defined.

End TerminalExtra.

(** ** Further properties of the event dispatcher *)

Module HookExtra.
Import HookPy HookFacts Specs2.

Lemma attr_name_inj a b : attr_name a = attr_name b → a = b.
Proof. destruct a, b; intros H; try reflexivity; by vm_compute in H. Qed.

Lemma getattr_handler_attr_name hd : getattr_handler (attr_name hd) = Some hd.
Proof. by destruct hd. Qed.

Lemma replace_idempotent s : replace 58%N 95%N (replace 58%N 95%N s) = replace 58%N 95%N s.
Proof.
  unfold replace. induction s as [|c s IH]; [done|]. simpl. rewrite IH.
  f_equal. destruct (N.eqb c 58) eqn:E; [reflexivity | by rewrite E].
Qed.

(** X12. Handler lookup is by method name: an event name reaches a handler
    exactly when, with every colon replaced by an underscore and [_handle_]
    put in front, it is that handler's method name.  So a name written with
    underscores reaches the same handler as the name written with colons,
    every subscribed event reaches its own handler, and every handler is
    that of a subscribed event. *)
Theorem resolve_is_by_method_name (ev : str) (hd : Handler) :
  (resolve ev = Some hd ↔ lit "_handle_" ++ replace 58%N 95%N ev = attr_name hd)
  ∧ resolve (replace 58%N 95%N ev) = resolve ev
  ∧ resolve <$> SUBSCRIBED_EVENTS = Some <$> all_handlers.
Proof.
  split; [|split].
  - unfold resolve, getattr_handler. split.
    + intros H. apply List.find_some in H as [_ H].
      by apply bool_decide_eq_true_1 in H.
    + intros ->. apply getattr_handler_attr_name.
  - unfold resolve. by rewrite replace_idempotent.
  - reflexivity.
Qed.

Section Clock.

Variable clock : nat → datetime.

Lemma run_cons d ds hw : run clock (d :: ds) hw = run clock ds (deliver clock d hw).
Proof. reflexivity. Qed.

Lemma status_in_values v :
  bool_decide (v ∈ status_values) = true → v ∈ status_values.
Proof. apply bool_decide_eq_true_1. Qed.

Lemma complete_is_streaming p s :
  is_streaming (_handle_task_agent_complete p s) = is_streaming s.
Proof.
  unfold _handle_task_agent_complete.
  destruct (pl_session_id p) as [[|c id]|]; cbn [truthy andb];
    repeat case_bool_decide; done.
Qed.

Ltac literal_status_ok :=
  split; [by apply status_in_values | first [done | discriminate]].

Lemma handler_state_ok hd p h w :
  state_ok (_state h) → state_ok (_state (run_handler clock hd p h w).1).
Proof.
  intros [Hin Hst]. unfold state_ok.
  destruct hd; simpl; try literal_status_ok.
  - unfold _handle_session_end. cbn.
    by destruct (_update_task h), (_status_line h), (started_at (_state h)).
  - unfold _handle_llm_request.
    destruct (pl_token_count p); simpl; literal_status_ok.
  - unfold _handle_llm_response.
    destruct (pl_token_count p); [|destruct (pl_usage p) as [u|];
      [destruct (u !! lit "input_tokens"), (u !! lit "output_tokens")|]]; simpl;
      literal_status_ok.
  - done.
  - rewrite complete_is_streaming.
    destruct (complete_shape p (_state h)) as (mid & -> & _ & Hs & _).
    case_bool_decide; simpl.
    + literal_status_ok.
    + by rewrite Hs.
Qed.

Lemma on_event_state_ok ev p h w :
  state_ok (_state h) → state_ok (_state (on_event clock ev p h w).1).
Proof.
  intros Hok. destruct (_enabled h) eqn:He.
  - rewrite on_event_enabled by done. simpl.
    unfold dispatch. destruct (resolve ev) as [hd|]; [|done].
    by apply handler_state_ok.
  - by rewrite on_event_disabled.
Qed.

(** X13. In every state the dispatcher can reach from construction, by any
    sequence of events with any payloads, the status is one of [starting],
    [idle], [thinking], [processing], [streaming], [executing], [delegating]
    and [error], and whenever it is [streaming] the streaming flag is
    set. *)
Theorem reachable_states_are_well_formed
    (config : Config) (supported : bool) (ds : list Delivery) (w : World) :
  state_ok (_state (run clock ds (SessionIndicatorHook_init config supported, w)).1).
Proof.
  assert (Hgen : ∀ ds h w, state_ok (_state h) →
                           state_ok (_state (run clock ds (h, w)).1)).
  { clear. intros ds. induction ds as [|d ds IH]; intros h w Hok; [done|].
    rewrite run_cons. unfold deliver.
    match goal with |- context [on_event clock ?e ?p ?h ?w'] =>
      pose proof (on_event_state_ok e p h w' Hok) as Hok';
      destruct (on_event clock e p h w') as [h' w''] end.
    by apply IH. }
  apply Hgen. split; [by apply status_in_values | discriminate].
Qed.

Lemma on_event_preserves_enabled ev p h w :
  _enabled (on_event clock ev p h w).1 = _enabled h.
Proof.
  destruct (_enabled h) eqn:He.
  - rewrite on_event_enabled by done.
    destruct (dispatch_facts clock ev p h w) as [Hd _].
    cbn [fst _enabled with_state]. by rewrite Hd.
  - by rewrite on_event_disabled.
Qed.

Lemma deliver_preserves_enabled d h w :
  _enabled (deliver clock d (h, w)).1 = _enabled h.
Proof.
  unfold deliver. destruct (_enabled h) eqn:He.
  - rewrite on_event_enabled by done. simpl.
    match goal with |- context [dispatch clock ?e ?p ?h ?w'] =>
      destruct (dispatch_facts clock e p h w') as [-> _] end.
    exact He.
  - by rewrite on_event_disabled.
Qed.

Lemma turn_count_after_handler hd p h w :
  hd ≠ H_session_start →
  turn_count (_state (run_handler clock hd p h w).1)
  = turn_count (_state h) + (if decide (hd = H_turn_start) then 1 else 0).
Proof.
  intros Hne. destruct hd; try done; simpl; try lia.
  - unfold _handle_session_end. cbn.
    destruct (_update_task h), (_status_line h), (started_at (_state h));
      cbn; lia.
  - unfold _handle_llm_request. destruct (pl_token_count p); simpl; lia.
  - unfold _handle_llm_response.
    destruct (pl_token_count p); [|destruct (pl_usage p) as [u|];
      [destruct (u !! lit "input_tokens"), (u !! lit "output_tokens")|]];
      simpl; lia.
  - unfold _handle_llm_stream_chunk. lia.
  - unfold _handle_task_agent_complete.
    destruct (pl_session_id p) as [[|c id]|]; cbn [truthy andb];
      repeat case_bool_decide; simpl; lia.
Qed.

(** X14. The turn counter counts turns.  Over any sequence of deliveries to
    an enabled hook in which no event starts a session, the counter grows by
    exactly the number of deliveries whose name reaches the [turn:start]
    handler; no other event changes it. *)
Theorem turn_count_counts_turn_starts
    (ds : list Delivery) (h : SessionIndicatorHook) (w : World) :
  _enabled h = true →
  reaching H_session_start ds = [] →
  turn_count (_state (run clock ds (h, w)).1)
  = turn_count (_state h) + Z.of_nat (length (reaching H_turn_start ds)).
Proof.
  revert h w. induction ds as [|d ds IH]; intros h w He Hno.
  { simpl. lia. }
  unfold reaching in *. rewrite filter_cons in Hno. rewrite filter_cons.
  destruct (decide (resolve (event_type d) = Some H_session_start)) as [|Hd];
    [discriminate Hno|].
  rewrite run_cons.
  pose proof (deliver_preserves_enabled d h w) as He'. rewrite He in He'.
  assert (Hstep : turn_count (_state (deliver clock d (h, w)).1)
    = turn_count (_state h)
      + (if decide (resolve (event_type d) = Some H_turn_start) then 1 else 0)).
  { unfold deliver. rewrite on_event_enabled by done. simpl.
    unfold dispatch. destruct (resolve (event_type d)) as [hd|] eqn:Er.
    - rewrite turn_count_after_handler by congruence.
      destruct (decide (Some hd = Some H_turn_start)) as [Hs|Hs];
        destruct (decide (hd = H_turn_start)) as [Heq|Hne];
        congruence || lia.
    - simpl. destruct (decide (None = Some H_turn_start)); [done | lia]. }
  destruct (deliver clock d (h, w)) as [h' w'] eqn:Ed. simpl in *.
  rewrite (IH h' w' He' Hno), Hstep.
  destruct (decide (resolve (event_type d) = Some H_turn_start)); simpl; lia.
Qed.

(** X15. Only three events touch the token counters.  On an enabled hook,
    [session:start] zeroes both; [llm:request] adds the payload's token
    count, if any, to the input counter and leaves the output counter;
    [llm:response] is the only event that changes the output counter; every
    other event, known or unknown, leaves both as they were. *)
Theorem token_counters_change_on_three_events
    (ev : str) (p : Payload) (h : SessionIndicatorHook) (w : World) :
  _enabled h = true →
  let before := _state h in
  let after := _state (on_event clock ev p h w).1 in
  match resolve ev with
  | Some H_session_start => input_tokens after = 0 ∧ output_tokens after = 0
  | Some H_llm_request =>
      input_tokens after = input_tokens before + default 0 (pl_token_count p)
      ∧ output_tokens after = output_tokens before
  | Some H_llm_response => True
  | _ =>
      input_tokens after = input_tokens before
      ∧ output_tokens after = output_tokens before
  end.
Proof.
  intros He before after. subst before after.
  rewrite on_event_enabled by done. simpl. unfold dispatch.
  destruct (resolve ev) as [hd|]; [|done].
  destruct hd; simpl; try done.
  - unfold _handle_session_end. cbn.
    by destruct (_update_task h), (_status_line h), (started_at (_state h)).
  - unfold _handle_llm_request. destruct (pl_token_count p); simpl; lia.
  - unfold _handle_task_agent_complete.
    destruct (pl_session_id p) as [[|c id]|]; cbn [truthy andb];
      repeat case_bool_decide; done.
Qed.

(** X16. [session:start] replaces the state; it does not merge.  On an
    enabled hook, whatever the state was, the state after the event is
    determined by the payload's session id and the clock alone: status
    [starting], no tool, zero counters, no sub-sessions, start time the
    first clock reading and last activity the third.  The hook is marked
    running, and exactly one status line is created and shown and one
    refresh task created, in that order, under fresh references. *)
Theorem session_start_replaces_the_state
    (p : Payload) (h : SessionIndicatorHook) (w : World) :
  _enabled h = true →
  let after := on_event clock (lit "session:start") p h w in
  _state after.1
  = {| session_id := pl_session_id p;
       started_at := Some (clock (clock_reads w));
       status := lit "starting"; current_tool := None;
       input_tokens := 0; output_tokens := 0; turn_count := 0;
       is_streaming := false;
       last_activity := Some (clock (S (S (clock_reads w))));
       active_subsessions := ∅ |}
  ∧ _running after.1 = true
  ∧ _status_line after.1 = Some (created w)
  ∧ _update_task after.1 = Some (S (created w))
  ∧ effects after.2
    = effects w ++ [NewStatusLine (created w) (_position h);
                    StatusLineShow (created w);
                    CreateUpdateTask (S (created w))]
  ∧ clock_reads after.2 = S (S (S (clock_reads w)))
  ∧ created after.2 = S (S (created w)).
Proof.
  intros He after. subst after. rewrite on_event_enabled by done.
  change (dispatch clock (lit "session:start") p h w)
    with (_handle_session_start clock p h w).
  unfold _handle_session_start. simpl.
  rewrite <- app_assoc. done.
Qed.

(** X17. The refresh task is awaited before the line is hidden.  On an
    enabled hook, a [session:end] after a [session:start] cancels the
    refresh task, awaits it, pushes the final summary of the state as it is
    then, sleeps, and hides the line, in that order and on the objects the
    start created; it clears the running flag, keeps every state field but
    the last activity, and keeps its references to the line and the task.
    On a hook that never started a session [session:end] touches neither the
    line nor a task. *)
Theorem session_end_awaits_then_hides
    (config : Config) (p_start p_end : Payload)
    (h : SessionIndicatorHook) (w : World) :
  _enabled h = true →
  let started := on_event clock (lit "session:start") p_start h w in
  let ended := on_event clock (lit "session:end") p_end started.1 started.2 in
  let fresh := SessionIndicatorHook_init config true in
  effects ended.2
  = effects started.2
      ++ [CancelUpdateTask (S (created w)); AwaitUpdateTask (S (created w));
          StatusLineUpdateSummary (created w) (_state started.1)
            (Some (clock (clock_reads started.2)));
          SleepHalfSecond; StatusLineHide (created w)]
  ∧ _running ended.1 = false
  ∧ _state ended.1
    = set_last_activity (Some (clock (S (clock_reads started.2))))
        (_state started.1)
  ∧ _status_line ended.1 = _status_line started.1
  ∧ _update_task ended.1 = _update_task started.1
  ∧ effects (on_event clock (lit "session:end") p_end fresh w).2 = effects w.
Proof.
  intros He started ended fresh.
  destruct (session_start_replaces_the_state p_start h w He)
    as (Hst & Hrun & Hline & Htask & Heff & Hreads & Hcreated).
  fold started in Hst, Hrun, Hline, Htask, Heff, Hreads, Hcreated.
  assert (He1 : _enabled started.1 = true).
  { subst started. by rewrite on_event_preserves_enabled. }
  subst ended. rewrite on_event_enabled by done.
  change (dispatch clock (lit "session:end") p_end started.1 started.2)
    with (_handle_session_end clock p_end started.1 started.2).
  unfold _handle_session_end. cbn [_update_task _status_line _state].
  rewrite Hline, Htask, Hst. cbn.
  split; [by rewrite <- app_assoc|].
  repeat split; done.
Qed.

(** X18. Only the session events reach the display.  On an enabled hook an
    event whose name reaches neither the [session:start] nor the
    [session:end] handler, unknown names included, makes no call on the
    status line or the refresh task, creates nothing, reads the clock exactly
    once, and leaves the running flag and the hook's references to the line,
    the task and the spinner as they were. *)
Theorem only_session_events_reach_the_display
    (ev : str) (p : Payload) (h : SessionIndicatorHook) (w : World) :
  _enabled h = true →
  resolve ev ≠ Some H_session_start →
  resolve ev ≠ Some H_session_end →
  let after := on_event clock ev p h w in
  effects after.2 = effects w
  ∧ created after.2 = created w
  ∧ clock_reads after.2 = S (clock_reads w)
  ∧ _running after.1 = _running h
  ∧ _status_line after.1 = _status_line h
  ∧ _update_task after.1 = _update_task h
  ∧ _spinner after.1 = _spinner h
  ∧ _position after.1 = _position h.
Proof.
  intros He Hs Hend after. subst after. rewrite on_event_enabled by done.
  unfold dispatch. destruct (resolve ev) as [hd|]; [|done].
  destruct hd; try done.
Qed.

End Clock.

Lemma turn_count_counts_turn_starts_witness :
  turn_count
    (_state
       (run (λ n : nat, Z.of_nat n)
          [ mkDelivery 0 (lit "turn:start") empty_payload;
            mkDelivery 3 (lit "tool:pre") empty_payload;
            mkDelivery 0 (lit "turn_start") empty_payload ]
          (SessionIndicatorHook_init config0 true, world0)).1)
  = 0 + Z.of_nat 2.
Proof.
  refine (turn_count_counts_turn_starts (λ n : nat, Z.of_nat n)
    [ mkDelivery 0 (lit "turn:start") empty_payload;
      mkDelivery 3 (lit "tool:pre") empty_payload;
      mkDelivery 0 (lit "turn_start") empty_payload ]
    (SessionIndicatorHook_init config0 true) world0 _ _).
  - reflexivity.
  - reflexivity.
Defined.

Lemma token_counters_change_on_three_events_witness :
  let h := SessionIndicatorHook_init config0 true in
  let after :=
    _state (on_event (λ n : nat, Z.of_nat n) (lit "tool:pre") empty_payload h world0).1 in
  input_tokens after = input_tokens (_state h)
  ∧ output_tokens after = output_tokens (_state h).
Proof.
  intros h.
  refine (token_counters_change_on_three_events (λ n : nat, Z.of_nat n)
    (lit "tool:pre") empty_payload h world0 _).
  reflexivity.
Defined.

Lemma session_start_replaces_the_state_witness :
  _running
    (on_event (λ n : nat, Z.of_nat n) (lit "session:start") empty_payload
       (SessionIndicatorHook_init config0 true) world0).1
  = true.
Proof.
  refine (proj1 (proj2
    (session_start_replaces_the_state (λ n : nat, Z.of_nat n) empty_payload
       (SessionIndicatorHook_init config0 true) world0 _))).
  reflexivity.
Defined.

Lemma session_end_awaits_then_hides_witness :
  let clock := λ n : nat, Z.of_nat n in
  let h := SessionIndicatorHook_init config0 true in
  let started := on_event clock (lit "session:start") empty_payload h world0 in
  _running (on_event clock (lit "session:end") empty_payload started.1 started.2).1
  = false.
Proof.
  intros clock h.
  refine (proj1 (proj2
    (session_end_awaits_then_hides clock config0 empty_payload empty_payload
       h world0 _))).
  reflexivity.
Defined.

Lemma only_session_events_reach_the_display_witness :
  effects
    (on_event (λ n : nat, Z.of_nat n) (lit "no:such:event") empty_payload
       (SessionIndicatorHook_init config0 true) world0).2
  = effects world0.
Proof.
  refine (proj1
    (only_session_events_reach_the_display (λ n : nat, Z.of_nat n)
       (lit "no:such:event") empty_payload
       (SessionIndicatorHook_init config0 true) world0 _ _ _)).
  - reflexivity.
  - discriminate.
  - discriminate.
Defined.

(** X20. Spawn and completion undo each other.  When a sub-session is
    spawned under a non-empty id that is not yet tracked and its completion
    arrives, the map of sub-sessions is what it was before.  If it was empty
    the status reverts to [thinking] and the tool is cleared; if other
    sub-sessions remain the status stays [delegating] and the label still
    names the agent that has just completed.  A spawn under an id that is
    already tracked replaces the agent name and adds no entry. *)
Theorem spawn_then_complete_restores
    (p again : Payload) (s : SessionState) (id : str) :
  pl_session_id p = Some id →
  pl_session_id again = Some id →
  id ≠ [] →
  active_subsessions s !! id = None →
  let agent := default (lit "agent") (pl_agent p) in
  let spawned := _handle_task_agent_spawned p s in
  let completed := _handle_task_agent_complete p spawned in
  let respawned := _handle_task_agent_spawned again spawned in
  active_subsessions completed = active_subsessions s
  ∧ (if bool_decide (active_subsessions s = ∅)
     then status completed = lit "thinking" ∧ current_tool completed = None
     else status completed = lit "delegating"
          ∧ current_tool completed = Some ([0x2192; 32]%N ++ agent))
  ∧ active_subsessions respawned
    = <[id := default (lit "agent") (pl_agent again)]> (active_subsessions s)
  ∧ size (active_subsessions respawned) = size (active_subsessions spawned).
Proof.
  intros Hid Hid2 Hne Hfresh agent spawned completed respawned.
  assert (Hsp : active_subsessions spawned = <[id := agent]> (active_subsessions s)).
  { subst spawned agent. unfold _handle_task_agent_spawned. by rewrite Hid. }
  destruct (complete_shape p spawned) as (mid & Hres & Hmid & Hst & Htool).
  rewrite Hid in Hmid. destruct id as [|c id]; [done|].
  rewrite Hsp, delete_insert_eq, delete_id in Hmid by done.
  assert (Hact : active_subsessions completed = active_subsessions s).
  { subst completed. rewrite Hres. by case_bool_decide. }
  split; [exact Hact|]. split.
  { subst completed. rewrite Hres, Hmid.
    destruct (bool_decide (active_subsessions s = ∅)); [split; reflexivity|].
    rewrite Hst, Htool. split; reflexivity. }
  assert (Hre : active_subsessions respawned
    = <[c :: id := default (lit "agent") (pl_agent again)]> (active_subsessions s)).
  { transitivity
      (<[c :: id := default (lit "agent") (pl_agent again)]>
         (active_subsessions spawned)).
    - subst respawned. unfold _handle_task_agent_spawned at 1.
      by rewrite Hid2.
    - rewrite Hsp. apply insert_insert_eq. }
  split; [exact Hre|].
  rewrite Hre, Hsp. by rewrite !map_size_insert_None.
Qed.

Lemma spawn_then_complete_restores_witness :
  let p := mkPayload (Some (lit "sub-123")) None None None None None
             (Some (lit "explorer")) in
  active_subsessions
    (_handle_task_agent_complete p
       (_handle_task_agent_spawned p SessionState_default))
  = active_subsessions SessionState_default.
Proof.
  intros p.
  refine (proj1 (spawn_then_complete_restores p p SessionState_default
                   (lit "sub-123") _ _ _ _)).
  - reflexivity.
  - reflexivity.
  - discriminate.
  - reflexivity.
Defined.

Import HookTextPy.

(** X21. The status text for a running tool is bounded.  With status
    [executing] and a non-empty tool name, the text is [executing: ]
    followed by the name when it has at most 20 characters, and by its first
    17 characters and [...] otherwise; so the text never exceeds 31
    characters, and is exactly 31 for every longer name. *)
Theorem executing_text_is_bounded (s : SessionState) (tool : str) :
  status s = lit "executing" →
  current_tool s = Some tool →
  tool ≠ [] →
  _get_status_text s
  = lit "executing: "
      ++ (if len tool >? 20 then take 17 tool ++ lit "..." else tool)
  ∧ len (_get_status_text s) ≤ 31
  ∧ (20 < len tool → len (_get_status_text s) = 31).
Proof.
  intros Hst Htool Hne.
  assert (Htext : _get_status_text s
    = lit "executing: "
        ++ (if len tool >? 20 then take 17 tool ++ lit "..." else tool)).
  { unfold _get_status_text. rewrite Hst, Htool.
    destruct tool as [|c t]; [done|]. cbn [if_tool].
    destruct (decide (lit "executing" = lit "executing")); [|done].
    reflexivity. }
  split; [exact Htext|].
  rewrite Htext. unfold len. rewrite length_app.
  change (length (lit "executing: ")) with 11%nat.
  destruct (Z.of_nat (length tool) >? 20) eqn:E.
  - rewrite length_app, length_take.
    change (length (lit "...")) with 3%nat. lia.
  - lia.
Qed.

Lemma executing_text_is_bounded_witness :
  len (_get_status_text
         (set_current_tool (Some (lit "a_very_long_tool_name_indeed"))
            (set_status (lit "executing") SessionState_default)))
  ≤ 31.
Proof.
  refine (proj1 (proj2
    (executing_text_is_bounded
       (set_current_tool (Some (lit "a_very_long_tool_name_indeed"))
          (set_status (lit "executing") SessionState_default))
       (lit "a_very_long_tool_name_indeed") _ _ _))).
  - reflexivity.
  - reflexivity.
  - discriminate.
Defined.

Ltac literal_text :=
  unfold _get_status_text; cbn [status current_tool set_status set_current_tool
    set_is_streaming set_turn_count set_input_tokens set_output_tokens
    set_active_subsessions if_tool];
  repeat (case_decide; try discriminate); try done.

(** X22. What each event makes the line say.  Straight after the handler
    of the event has run, the status text is: [thinking] for [llm:request],
    [tool:post] and [turn:start]; [processing] for [llm:response] and
    [llm:stream_end]; [streaming response] for [llm:stream_start];
    [waiting for input] for [turn:end]; the [Error: ] label for
    [session:error]; the arrow and the agent name for [task:agent_spawned];
    and for [tool:pre] the bounded [executing: ] text, or the bare word
    [executing] when the tool name in the payload is the empty string. *)
Theorem status_text_after_event (p : Payload) (s : SessionState) :
  let name :=
    default (default (lit "tool") (pl_name p)) (pl_tool_name p) in
  _get_status_text (_handle_llm_request p s) = lit "thinking"
  ∧ _get_status_text (_handle_tool_post p s) = lit "thinking"
  ∧ _get_status_text (_handle_turn_start p s) = lit "thinking"
  ∧ _get_status_text (_handle_llm_response p s) = lit "processing"
  ∧ _get_status_text (_handle_llm_stream_end p s) = lit "processing"
  ∧ _get_status_text (_handle_llm_stream_start p s) = lit "streaming response"
  ∧ _get_status_text (_handle_turn_end p s) = lit "waiting for input"
  ∧ _get_status_text (_handle_session_error p s)
    = lit "Error: " ++ take 50 (default (lit "Unknown error") (pl_error p))
  ∧ _get_status_text (_handle_task_agent_spawned p s)
    = [0x2192; 32]%N ++ default (lit "agent") (pl_agent p)
  ∧ _get_status_text (_handle_tool_pre p s)
    = match name with
      | [] => lit "executing"
      | _ =>
          lit "executing: "
            ++ (if len name >? 20 then take 17 name ++ lit "..." else name)
      end.
Proof.
  intros name.
  split.
  { unfold _handle_llm_request. destruct (pl_token_count p); literal_text. }
  split; [unfold _handle_tool_post; literal_text|].
  split; [unfold _handle_turn_start; literal_text|].
  split.
  { unfold _handle_llm_response.
    destruct (pl_token_count p); [|destruct (pl_usage p) as [u|];
      [destruct (u !! lit "input_tokens"), (u !! lit "output_tokens")|]];
      literal_text. }
  split; [unfold _handle_llm_stream_end; literal_text|].
  split; [unfold _handle_llm_stream_start; literal_text|].
  split; [unfold _handle_turn_end; literal_text|].
  split; [unfold _handle_session_error; literal_text|].
  split; [unfold _handle_task_agent_spawned; literal_text|].
  unfold _handle_tool_pre. fold name. destruct name as [|c t]; literal_text.
Qed.

Lemma pad2_digits n :
  0 ≤ n < 60 →
  pad2 n = [Z.to_N (48 + n / 10); Z.to_N (48 + n mod 10)].
Proof.
  intros Hn. rewrite <- (Z2Nat.id n) by lia.
  assert (Hk : (Z.to_nat n < 60)%nat) by lia.
  generalize dependent (Z.to_nat n). clear. intros k Hk.
  do 60 (destruct k as [|k]; [vm_compute; reflexivity|]). lia.
Qed.

Lemma lit_inj a b : lit a = lit b → a = b.
Proof.
  unfold lit. intros H.
  rewrite <- (string_of_list_ascii_of_string a),
          <- (string_of_list_ascii_of_string b).
  f_equal. revert H.
  generalize (list_ascii_of_string a) (list_ascii_of_string b).
  induction l as [|x l IH]; intros [|y l']; simpl; intros H; try done.
  inversion H as [[Hx Hl]]. f_equal; [|by apply IH].
  rewrite <- (ascii_N_embedding x), <- (ascii_N_embedding y). by rewrite Hx.
Qed.

Lemma str_of_int_inj a b : str_of_int a = str_of_int b → a = b.
Proof. unfold str_of_int. intros H. apply lit_inj in H. by apply (inj pretty). Qed.

Lemma digits_inj m n :
  0 ≤ m < 60 → 0 ≤ n < 60 →
  [Z.to_N (48 + m / 10); Z.to_N (48 + m mod 10)]
  = [Z.to_N (48 + n / 10); Z.to_N (48 + n mod 10)] →
  m = n.
Proof.
  intros Hm Hn H. inversion H as [[H1 H2]].
  Z.div_mod_to_equations. lia.
Qed.

Lemma format_elapsed_shape a :
  0 ≤ a →
  format_elapsed a
  = (if 3600 <=? a
     then str_of_int (a / 3600)
            ++ [58%N; Z.to_N (48 + ((a mod 3600) / 60) / 10);
                Z.to_N (48 + ((a mod 3600) / 60) mod 10); 58%N;
                Z.to_N (48 + (a mod 60) / 10); Z.to_N (48 + (a mod 60) mod 10)]
     else [Z.to_N (48 + (a / 60) / 10); Z.to_N (48 + (a / 60) mod 10); 58%N;
           Z.to_N (48 + (a mod 60) / 10); Z.to_N (48 + (a mod 60) mod 10)]).
Proof.
  intros Ha. unfold format_elapsed.
  destruct (3600 <=? a) eqn:E.
  - rewrite !pad2_digits by (Z.div_mod_to_equations; lia). reflexivity.
  - apply Z.leb_gt in E.
    rewrite !pad2_digits by (Z.div_mod_to_equations; lia). reflexivity.
Qed.

(** X23. Elapsed time reads back.  For a whole number of seconds that is
    not negative, [format_elapsed] gives two-digit minutes, a colon and
    two-digit seconds (five characters) below one hour, and from one hour on
    the unpadded hours, a colon, two-digit minutes, a colon and two-digit
    seconds; and two different durations never render as the same text. *)
Theorem format_elapsed_is_injective (a b : Z) :
  0 ≤ a →
  0 ≤ b →
  (a < 3600 →
     format_elapsed a
     = [Z.to_N (48 + (a / 60) / 10); Z.to_N (48 + (a / 60) mod 10); 58%N;
        Z.to_N (48 + (a mod 60) / 10); Z.to_N (48 + (a mod 60) mod 10)])
  ∧ (3600 ≤ a →
     format_elapsed a
     = str_of_int (a / 3600)
         ++ [58%N; Z.to_N (48 + ((a mod 3600) / 60) / 10);
             Z.to_N (48 + ((a mod 3600) / 60) mod 10); 58%N;
             Z.to_N (48 + (a mod 60) / 10); Z.to_N (48 + (a mod 60) mod 10)])
  ∧ (format_elapsed a = format_elapsed b → a = b).
Proof.
  intros Ha Hb.
  pose proof (format_elapsed_shape a Ha) as Sa.
  pose proof (format_elapsed_shape b Hb) as Sb.
  split; [intros Hlt; rewrite Sa; by destruct (3600 <=? a) eqn:E;
            [apply Z.leb_le in E; lia|]|].
  split; [intros Hge; rewrite Sa; by destruct (3600 <=? a) eqn:E;
            [|apply Z.leb_gt in E; lia]|].
  rewrite Sa, Sb. clear Sa Sb.
  destruct (3600 <=? a) eqn:Ea, (3600 <=? b) eqn:Eb.
  - apply Z.leb_le in Ea, Eb. intros H.
    apply app_inj_2 in H as [Hh Ht]; [|reflexivity].
    apply str_of_int_inj in Hh.
    inversion Ht as [[Hm1 Hm2 Hs1 Hs2]].
    assert (Hm : (a mod 3600) / 60 = (b mod 3600) / 60).
    { apply digits_inj; [Z.div_mod_to_equations; lia
                        | Z.div_mod_to_equations; lia | by rewrite Hm1, Hm2]. }
    assert (Hs : a mod 60 = b mod 60).
    { apply digits_inj; [Z.div_mod_to_equations; lia
                        | Z.div_mod_to_equations; lia | by rewrite Hs1, Hs2]. }
    Z.div_mod_to_equations. lia.
  - intros H. apply (f_equal length) in H. rewrite length_app in H.
    simpl in H. lia.
  - intros H. apply (f_equal length) in H. rewrite length_app in H.
    simpl in H. lia.
  - apply Z.leb_gt in Ea, Eb. intros H.
    inversion H as [[Hm1 Hm2 Hs1 Hs2]].
    assert (Hm : a / 60 = b / 60).
    { apply digits_inj; [Z.div_mod_to_equations; lia
                        | Z.div_mod_to_equations; lia | by rewrite Hm1, Hm2]. }
    assert (Hs : a mod 60 = b mod 60).
    { apply digits_inj; [Z.div_mod_to_equations; lia
                        | Z.div_mod_to_equations; lia | by rewrite Hs1, Hs2]. }
    Z.div_mod_to_equations. lia.
Qed.

Lemma format_elapsed_is_injective_witness :
  format_elapsed 3930
  = str_of_int (3930 / 3600)
      ++ [58%N; Z.to_N (48 + ((3930 mod 3600) / 60) / 10);
          Z.to_N (48 + ((3930 mod 3600) / 60) mod 10); 58%N;
          Z.to_N (48 + (3930 mod 60) / 10); Z.to_N (48 + (3930 mod 60) mod 10)].
Proof.
  refine (proj1 (proj2 (format_elapsed_is_injective 3930 330 _ _)) _); lia.
Defined.

End HookExtra.
